(** * GitHub profile analyzer: the aggregation and scoring back end

    A shallow embedding of the Express server of the repository (the file
    that defines [calculateHireabilityScore], [filterLowValueRepos],
    [generateAIReview] and the handler of [GET /api/analyze/:username]),
    and the properties its specification states about it.

    Conventions of the embedding.
    - A JavaScript number that holds a count (followers, repository size,
      bytes of a language) is an integer of [Z]; [Math.floor (x / d)] for a
      positive [d] is then [x / d] of [Z], which rounds towards minus
      infinity as [Math.floor] does. Where numbers are added or printed
      they are doubles: [roundDouble] and [numberToString] below.
    - A JavaScript string is a [string]; a field that upstream may report
      as [null] is an [option].
    - A JavaScript object used as a dictionary ([langTotals]) is an
      association list without repeated keys in the order in which
      [Object.keys] and [Object.entries] enumerate it: array indices
      first, then the other keys in insertion order.
    - [await fetch (...)] and [await response.json ()] either produce a
      value or throw; the handler runs in a small monad that records the
      upstream calls made and propagates what is thrown. *)

From Stdlib Require Import ZArith Lia Bool Ascii String List.
From stdpp Require Import base tactics option list strings pretty sorting.

Local Open Scope string_scope.
Local Open Scope list_scope.
Local Open Scope Z_scope.

(** ** Data model *)

(** The part of the upstream user object that the server reads. *)
Record Profile := mkProfile {
  login : string;
  followers : Z;
  public_repos : Z
}.

(** The part of an upstream repository object that the server reads; the
    object itself is passed through to the response unchanged. *)
Record Repository := mkRepository {
  name : string;
  fork : bool;
  size : Z;
  description : option string
}.

(** A value stored under a key of a language map. Upstream reports byte
    counts; the body of an error answer holds strings instead. *)
Inductive jsval :=
| Num (n : Z)
| Str (s : string).

(** A JavaScript object used as a dictionary, in its order of
    enumeration. *)
Definition LangTotals := list (string * jsval).

Definition Object_keys (o : LangTotals) : list string := map fst o.

(** ** The score calculator *)

Definition calculateHireabilityScore
    (profile : Profile) (repos : list Repository) (langTotals : LangTotals) : Z :=
  let score := 0 in
  let publicReposCount := Z.of_nat (length repos) in
  (* Score based on followers (up to 30) *)
  let score := score + Z.min 30 (followers profile / 10) in
  (* Score based on meaningful repo count (up to 30) *)
  let score := score + Z.min 30 (publicReposCount / 5 * 2) in
  (* Score based on language diversity (up to 40) *)
  let languageCount := Z.of_nat (length (Object_keys langTotals)) in
  let score := score + Z.min 40 (Z.max 0 ((languageCount - 1) * 10)) in
  Z.min 100 (Z.max 0 score).

(** The three terms as the specification words them, over the three
    numbers the score depends on. *)
Module ScoreSpec.

Definition floor_quot (x d : Z) : Z := x / d.

Definition T_f (followers : Z) : Z := Z.min 30 (floor_quot followers 10).

Definition T_v (repoCount : Z) : Z := Z.min 30 (floor_quot repoCount 5 * 2).

Definition T_d (distinctLanguageCount : Z) : Z :=
  Z.min 40 (Z.max 0 ((distinctLanguageCount - 1) * 10)).

Definition score (followers repoCount distinctLanguageCount : Z) : Z :=
  Z.min 100 (Z.max 0 (T_f followers + T_v repoCount + T_d distinctLanguageCount)).

End ScoreSpec.

(** ** The repository filter *)

(** [String.prototype.toLowerCase] on the bytes of a string. Only the
    letters A to Z change; no other character lowers to a letter of
    "template", so the test below reads the same on every description. *)
Definition lowerChar (c : ascii) : ascii :=
  let n := nat_of_ascii c in
  if (65 <=? n)%nat && (n <=? 90)%nat then ascii_of_nat (n + 32) else c.

Fixpoint toLowerCase (s : string) : string :=
  match s with
  | EmptyString => EmptyString
  | String c rest => String (lowerChar c) (toLowerCase rest)
  end.

(** [s.startsWith (pat)]. *)
Fixpoint startsWith (s pat : string) {struct pat} : bool :=
  match pat with
  | EmptyString => true
  | String a pat' =>
      match s with
      | EmptyString => false
      | String b s' => Ascii.eqb a b && startsWith s' pat'
      end
  end.

(** [s.includes (pat)]: [pat] starts at some position of [s]. *)
Fixpoint includes (s pat : string) : bool :=
  if startsWith s pat then true
  else match s with
       | EmptyString => false
       | String _ rest => includes rest pat
       end.

(** Truthiness of [repo.description]: [null] and the empty string are
    falsy. *)
Definition truthyString (o : option string) : bool :=
  match o with
  | Some (String _ _) => true
  | _ => false
  end.

Definition minLinesOfCode : Z := 100.

(** The callback given to [repos.filter]. *)
Definition keepRepo (repo : Repository) : bool :=
  (* Exclude forks *)
  if fork repo then false
  (* Exclude tiny repositories *)
  else if size repo <? minLinesOfCode then false
  (* Exclude repositories explicitly marked as templates *)
  else if truthyString (description repo)
          && includes (toLowerCase (default "" (description repo))) "template"
       then false
  else true.

Definition filterLowValueRepos (repos : list Repository) : list Repository :=
  List.filter keepRepo repos.

(** Step 3 of the handler: the filter runs only when the flag is set. *)
Definition applyFilter (repos : list Repository) (shouldFilter : bool) : list Repository :=
  if shouldFilter then filterLowValueRepos repos else repos.

(** The removal condition as the specification words it. *)
Definition containsSubstring (s pat : string) : Prop :=
  exists before after, s = before +:+ pat +:+ after.

Definition lowValue (repo : Repository) : Prop :=
  fork repo = true \/
  size repo < 100 \/
  exists d, description repo = Some d /\ containsSubstring (toLowerCase d) "template".

(** ** The language totals *)

(** [langTotals] is a plain object, so reading a key that it does not
    hold itself finds what [Object.prototype] holds under that name: a
    function, or for ["__proto__"] the prototype object. All of them are
    truthy, and [+] turns them into the text below. *)
Definition nativeFunction (name : string) : string :=
  "function " +:+ name +:+ "() { [native code] }".

Definition inheritedText (k : string) : option string :=
  if String.eqb k "constructor" then Some (nativeFunction "Object")
  else if String.eqb k "__proto__" then Some "[object Object]"
  else if existsb (String.eqb k)
            ["toString"; "toLocaleString"; "valueOf"; "hasOwnProperty";
             "isPrototypeOf"; "propertyIsEnumerable"; "__defineGetter__";
             "__defineSetter__"; "__lookupGetter__"; "__lookupSetter__"]
       then Some (nativeFunction k)
  else None.

(** The value that the object holds itself under a key. *)
Fixpoint getOwn (k : string) (o : LangTotals) : option jsval :=
  match o with
  | [] => None
  | (k', v) :: rest => if String.eqb k k' then Some v else getOwn k rest
  end.

(** [o[k]] as [||] and [+] see it: the own value, else the inherited one;
    [None] is [undefined]. *)
Definition getProp (k : string) (o : LangTotals) : option jsval :=
  match getOwn k o with
  | Some v => Some v
  | None => option_map Str (inheritedText k)
  end.

(** A key that is an array index, a canonical decimal below 2^32 - 1, and
    the number it denotes. *)
Definition digitValue (c : ascii) : option N :=
  let n := N_of_ascii c in
  if (48 <=? n)%N && (n <=? 57)%N then Some (n - 48)%N else None.

Fixpoint parseDigits (s : string) (acc : N) : option N :=
  match s with
  | EmptyString => Some acc
  | String c rest =>
      match digitValue c with
      | Some d => parseDigits rest (10 * acc + d)%N
      | None => None
      end
  end.

Definition arrayIndex (k : string) : option N :=
  match k with
  | EmptyString => None
  | String "0" (String _ _) => None
  | _ =>
      match parseDigits k 0 with
      | Some n => if (n <? 2 ^ 32 - 1)%N then Some n else None
      | None => None
      end
  end.

(** A new key that is an array index goes among the array indices that
    lead the enumeration, in ascending order. *)
Fixpoint insertIndexed (i : N) (k : string) (v : jsval) (o : LangTotals) : LangTotals :=
  match o with
  | [] => [(k, v)]
  | (k', v') :: rest =>
      match arrayIndex k' with
      | Some j => if (j <? i)%N then (k', v') :: insertIndexed i k v rest
                  else (k, v) :: o
      | None => (k, v) :: o
      end
  end.

Fixpoint replaceOwn (k : string) (v : jsval) (o : LangTotals) : LangTotals :=
  match o with
  | [] => []
  | (k', v') :: rest =>
      if String.eqb k k' then (k', v) :: rest else (k', v') :: replaceOwn k v rest
  end.

(** [o[k] = v] for a number or a string [v]. The setter of ["__proto__"]
    ignores such a value. A key that the object holds keeps its place; a
    new key goes among the array indices if it is one, and last if not. *)
Definition setProp (k : string) (v : jsval) (o : LangTotals) : LangTotals :=
  if String.eqb k "__proto__" then o
  else match getOwn k o with
       | Some _ => replaceOwn k v o
       | None =>
           match arrayIndex k with
           | Some i => insertIndexed i k v o
           | None => o ++ [(k, v)]
           end
       end.

(** [x || 0]: [undefined], [0] and the empty string are falsy. *)
Definition orZero (x : option jsval) : jsval :=
  match x with
  | None => Num 0
  | Some (Num 0) => Num 0
  | Some (Str EmptyString) => Num 0
  | Some v => v
  end.

(** A number is a double. The integer nearest to [z] that is a double:
    below 2^53 every integer is one, above the last bits are rounded off,
    ties to even. (No sum of the properties below reaches 2^1024, where a
    double becomes [Infinity].) *)
Definition roundDouble (z : Z) : Z :=
  let a := Z.abs z in
  if a <? 2 ^ 53 then z
  else
    let ulp := 2 ^ (Z.log2 a - 52) in
    let q := a / ulp in
    let r := a mod ulp in
    let q' := if 2 * r <? ulp then q
              else if ulp <? 2 * r then q + 1
              else if Z.even q then q else q + 1 in
    Z.sgn z * (q' * ulp).

(** [String (x)] for a number: the shortest decimal that denotes the
    double, written in full up to 21 digits and with an exponent beyond.
    [digits x] is the number of decimal digits of a positive [x]. *)
Definition digits (x : Z) : Z := Z.of_nat (String.length (pretty x)).

(** The decimal of [k] digits, scaled to the [n] digits of [x] (or to one
    more when it is a power of ten), that denotes the double [x], if there
    is one; of two, the one nearer to [x], and the even one on a tie. *)
Definition shortestWith (x n k : Z) : option (Z * Z) :=
  let p := 10 ^ (n - k) in
  let lo := x / p in
  let hi := lo + 1 in
  let pick s := if s =? 10 ^ k then (10 ^ (k - 1), n + 1) else (s, n) in
  match roundDouble (lo * p) =? x, roundDouble (hi * p) =? x with
  | true, true =>
      let dlo := x - lo * p in
      let dhi := hi * p - x in
      Some (pick (if dlo <? dhi then lo
                  else if dhi <? dlo then hi
                  else if Z.even lo then lo else hi))
  | true, false => Some (pick lo)
  | false, true => Some (pick hi)
  | false, false => None
  end.

Fixpoint shortest (x n : Z) (ks : list Z) : option (Z * Z) :=
  match ks with
  | [] => None
  | k :: rest =>
      match shortestWith x n k with
      | Some found => Some found
      | None => shortest x n rest
      end
  end.

Fixpoint zeros (n : nat) : string :=
  match n with
  | O => EmptyString
  | S n' => String "0" (zeros n')
  end.

Definition formatNumber (s n : Z) : string :=
  let d := pretty s in
  if n <=? 21 then d +:+ zeros (Z.to_nat (n - digits s))
  else match d with
       | EmptyString => EmptyString
       | String c EmptyString => String c ("e+" +:+ pretty (n - 1))
       | String c rest => String c ("." +:+ rest +:+ "e+" +:+ pretty (n - 1))
       end.

Definition numberToString (z : Z) : string :=
  let x := Z.abs (roundDouble z) in
  if x =? 0 then "0"
  else
    let body :=
      match shortest x (digits x) [1; 2; 3; 4; 5; 6; 7; 8; 9; 10; 11; 12; 13; 14; 15; 16; 17] with
      | Some (s, n) => formatNumber s n
      | None => pretty x
      end in
    if z <? 0 then "-" +:+ body else body.

Definition ToString (v : jsval) : string :=
  match v with
  | Num n => numberToString n
  | Str s => s
  end.

(** [a + b]: addition of two numbers, concatenation as soon as one side is
    a string. *)
Definition jsAdd (a b : jsval) : jsval :=
  match a, b with
  | Num x, Num y => Num (roundDouble (x + y))
  | _, _ => Str (ToString a +:+ ToString b)
  end.

(** The loop [for (const [lang, bytes] of entries)
    langTotals[lang] = (langTotals[lang] || 0) + bytes]. *)
Definition addLanguages (langTotals : LangTotals) (entries : list (string * jsval)) : LangTotals :=
  fold_left
    (fun totals '(lang, bytes) => setProp lang (jsAdd (orZero (getProp lang totals)) bytes) totals)
    entries langTotals.

(** ** The review generator (a fixed template) *)

(** [a || b] on strings: the empty string is falsy. *)
Definition orString (a b : string) : string :=
  match a with
  | EmptyString => b
  | _ => a
  end.

(** [s.split (',')[0]]: the text before the first comma. *)
Fixpoint beforeComma (s : string) : string :=
  match s with
  | EmptyString => EmptyString
  | String c rest => if Ascii.eqb c "," then EmptyString else String c (beforeComma rest)
  end.

Definition generateAIReview
    (profile : Profile) (langTotals : LangTotals) (hireabilityScore : Z) : string :=
  let languageList :=
    orString (String.concat ", " (Object_keys langTotals)) "No main languages detected." in
  "This profile showcases a strong focus on "
  +:+ orString (beforeComma languageList) "core technologies"
  +:+ ", backed by a Hireability Score of " +:+ numberToString hireabilityScore
  +:+ "/100. The repository filter highlights " +:+ numberToString (public_repos profile)
  +:+ " public projects, demonstrating consistent activity. This candidate exhibits high potential for roles requiring deep expertise in "
  +:+ beforeComma languageList
  +:+ ". (This is a mock AI review to demonstrate UI functionality.)".

(** ** Upstream *)

(** What is thrown: an error with its message. *)
Record Exn := mkExn { message : string }.

(** An upstream answer: its status, and what [await response.json ()]
    gives, which throws when the body is not JSON. *)
Record HttpResponse (A : Type) := mkHttpResponse {
  status : Z;
  json : Exn + A
}.

Arguments mkHttpResponse {A} _ _.
Arguments status {A} _.
Arguments json {A} _.

(** What [await fetch (url)] gives: it throws when the request itself
    fails, and resolves with the answer otherwise, whatever its status. *)
Definition Fetched (A : Type) : Type := Exn + HttpResponse A.

(** The parsed body of the repository list: an array of repositories, or
    any other JSON value. *)
Inductive ReposJson :=
| ReposArray (repos : list Repository)
| NotAnArray.

(** The parsed body of a language request: an object, or [null]. *)
Inductive LangsJson :=
| LangsObject (entries : list (string * jsval))
| LangsNull.

(** The three upstream endpoints, and the order in which the language
    requests issued together complete, which is any order. Every request
    is taken to settle (the code sets no timeout, so a request that never
    settles leaves the handler without a response), and a body that parses
    is taken to have the shape that upstream documents: a user object, an
    array of repositories or another value, an object of languages or
    [null]. *)
Record Upstream := mkUpstream {
  users : string -> Fetched Profile;
  userRepos : string -> Fetched ReposJson;
  repoLanguages : string -> string -> Fetched LangsJson;
  completion : list Repository -> list Repository;
  completion_perm : forall repos, completion repos ≡ₚ repos
}.

(** The upstream calls, as the handler issues them. *)
Inductive Call :=
| GetUser (username : string)
| GetRepos (username : string)
| GetLanguages (username repo : string).

(** ** The monad of the handler: a log of upstream calls, and exceptions *)

Definition M (A : Type) : Type := list Call -> (Exn + A) * list Call.

Definition ret {A} (a : A) : M A := fun log => (inr a, log).

Definition bind {A B} (m : M A) (k : A -> M B) : M B :=
  fun log =>
    match m log with
    | (inl e, log') => (inl e, log')
    | (inr a, log') => k a log'
    end.

Definition tryCatch {A} (m : M A) (handler : Exn -> M A) : M A :=
  fun log =>
    match m log with
    | (inl e, log') => handler e log'
    | (inr a, log') => (inr a, log')
    end.

Notation "x <- m ;; k" := (bind m (fun x => k))
  (at level 100, m at next level, right associativity).

(** [await fetch (url)] against the given upstream answer. *)
Definition fetch {A} (c : Call) (answer : Fetched A) : M (HttpResponse A) :=
  fun log => (answer, log ++ [c]).

(** [await response.json ()]. *)
Definition awaitJson {A} (r : HttpResponse A) : M A :=
  fun log => (json r, log).

(** ** Language aggregation *)

(** [Object.entries (langs || {})]. *)
Definition Object_entries (langs : LangsJson) : list (string * jsval) :=
  match langs with
  | LangsObject entries => entries
  | LangsNull => []
  end.

(** The body of one task of the fan-out once its request has completed:
    the [try] block adds the entries of the answer to the shared totals,
    the [catch] block ignores what either [await] throws. *)
Definition languageTask (up : Upstream) (username : string)
    (langTotals : LangTotals) (repo : Repository) : LangTotals :=
  match repoLanguages up username (name repo) with
  | inl _ => langTotals
  | inr lg =>
      match json lg with
      | inl _ => langTotals
      | inr langs => addLanguages langTotals (Object_entries langs)
      end
  end.

(** The tasks run to completion one at a time, in completion order, on the
    totals they share. *)
Definition runTasks (up : Upstream) (username : string) (order : list Repository) : LangTotals :=
  fold_left (languageTask up username) order [].

(** [await Promise.all (finalRepos.map (async repo => ...))]: the requests
    are issued in list order, the tasks complete in any order, and the
    handler resumes once all of them have. *)
Definition aggregateLanguages (up : Upstream) (username : string)
    (finalRepos : list Repository) : M LangTotals :=
  fun log =>
    (inr (runTasks up username (completion up finalRepos)),
     log ++ map (fun repo => GetLanguages username (name repo)) finalRepos).

(** ** The handler of GET /api/analyze/:username *)

(** [req.query.filter]: absent, a string, or the array or object that the
    query parser builds from a repeated or bracketed parameter. *)
Inductive QueryValue :=
| QAbsent
| QString (s : string)
| QStructured.

Record Request := mkRequest {
  username : string;
  filter : QueryValue
}.

Record AnalysisResult := mkAnalysisResult {
  profile : Profile;
  repositories : list Repository;
  languagesByBytes : LangTotals;
  hireabilityScore : Z;
  aiReview : string
}.

Inductive Payload :=
| ErrorJson (error : string)
| ResultJson (result : AnalysisResult).

Record Response := mkResponse {
  statusCode : Z;
  payload : Payload
}.

(** [v === 'true']. *)
Definition isTrueString (v : QueryValue) : bool :=
  match v with
  | QString s => String.eqb s "true"
  | _ => false
  end.

(** [!GITHUB_TOKEN]: the variable is unset or empty. *)
Definition tokenMissing (GITHUB_TOKEN : option string) : bool :=
  negb (truthyString GITHUB_TOKEN).

(** [Array.isArray (fetchedRepos) ? fetchedRepos : []]. *)
Definition arrayOrEmpty (fetchedRepos : ReposJson) : list Repository :=
  match fetchedRepos with
  | ReposArray repos => repos
  | NotAnArray => []
  end.

Definition analyze (GITHUB_TOKEN : option string) (up : Upstream) (req : Request) : M Response :=
  let username := username req in
  let shouldFilter := isTrueString (filter req) in
  if tokenMissing GITHUB_TOKEN then
    ret (mkResponse 500 (ErrorJson "Server configuration error: GitHub token missing."))
  else
    tryCatch
      ((* 1. Fetch Profile *)
       r <- fetch (GetUser username) (users up username) ;;
       if status r =? 404 then ret (mkResponse 404 (ErrorJson "User not found"))
       else if status r =? 401 then
         ret (mkResponse 401 (ErrorJson "GitHub Token is invalid or expired."))
       else
         profile <- awaitJson r ;;
         (* 2. Fetch Repositories *)
         rep <- fetch (GetRepos username) (userRepos up username) ;;
         fetchedRepos <- awaitJson rep ;;
         (* 3. Conditional Filtering *)
         let finalRepos := arrayOrEmpty fetchedRepos in
         let finalRepos := applyFilter finalRepos shouldFilter in
         (* 4. Aggregate Languages (on finalRepos, filtered or not) *)
         langTotals <- aggregateLanguages up username finalRepos ;;
         (* 5. Calculate Hireability Score (on final data) *)
         let hireabilityScore := calculateHireabilityScore profile finalRepos langTotals in
         (* 6. Generate AI Review (MOCK) *)
         let aiReview := generateAIReview profile langTotals hireabilityScore in
         (* 7. Send Response *)
         ret (mkResponse 200
                (ResultJson (mkAnalysisResult profile finalRepos langTotals
                               hireabilityScore aiReview))))
      (fun err =>
         ret (mkResponse 500 (ErrorJson ("Internal Server Error: " +:+ message err)))).

(** Running the handler on a request, from an empty log: what it sends,
    and the upstream calls made. *)
Definition serve (GITHUB_TOKEN : option string) (up : Upstream) (req : Request)
    : (Exn + Response) * list Call :=
  analyze GITHUB_TOKEN up req [].

(** The two responses that carry computed text, for the statements below. *)
Definition internalError (err : Exn) : Response :=
  mkResponse 500 (ErrorJson ("Internal Server Error: " +:+ message err)).

Definition analysis (profile : Profile) (finalRepos : list Repository)
    (langTotals : LangTotals) : Response :=
  let hireabilityScore := calculateHireabilityScore profile finalRepos langTotals in
  mkResponse 200
    (ResultJson (mkAnalysisResult profile finalRepos langTotals hireabilityScore
                   (generateAIReview profile langTotals hireabilityScore))).

Definition languageCalls (username : string) (finalRepos : list Repository) : list Call :=
  map (fun repo => GetLanguages username (name repo)) finalRepos.

(** ** Byte maps and their sums, to state what aggregation computes *)

(** A language map as upstream documents it: bytes of code per language. *)
Definition byteMap (m : list (string * Z)) : list (string * jsval) :=
  map (fun '(lang, bytes) => (lang, Num bytes)) m.

(** The entries that the task of a repository adds to the totals: those of
    the answer, and none when the task catches an exception. *)
Definition taskEntries (up : Upstream) (username : string) (repo : Repository)
    : list (string * jsval) :=
  match repoLanguages up username (name repo) with
  | inl _ => []
  | inr lg =>
      match json lg with
      | inl _ => []
      | inr langs => Object_entries langs
      end
  end.

Definition mergeAll (maps : list (list (string * jsval))) : LangTotals :=
  fold_left addLanguages maps [].

(** The task of [repo] adds the byte map [m]: its language request is
    answered with [m], or with [null] or not at all and [m] is empty. *)
Definition contributes (up : Upstream) (username : string) (repo : Repository)
    (m : list (string * Z)) : Prop :=
  taskEntries up username repo = byteMap m.

Definition hasLanguage (lang : string) (m : list (string * Z)) : bool :=
  existsb (fun '(k, _) => String.eqb lang k) m.

Definition mentioned (lang : string) (maps : list (list (string * Z))) : bool :=
  existsb (hasLanguage lang) maps.

(** The bytes of [lang] in one map, and their sum over a list of maps. *)
Definition bytesOf (lang : string) (m : list (string * Z)) : Z :=
  fold_right (fun '(k, b) acc => if String.eqb lang k then b + acc else acc) 0 m.

Definition totalBytes (lang : string) (maps : list (list (string * Z))) : Z :=
  fold_right (fun m acc => bytesOf lang m + acc) 0 maps.

(** The number stored under a key, 0 when there is none. *)
Definition bytesIn (lang : string) (o : LangTotals) : Z :=
  match getOwn lang o with
  | Some (Num n) => n
  | _ => 0
  end.

(** A byte map as upstream documents it: the names of languages, none of
    them a name that [Object.prototype] holds, with counts that are not
    negative. *)
Definition languageBytes (m : list (string * Z)) : Prop :=
  Forall (fun kv => inheritedText (fst kv) = None /\ 0 <= snd kv) m.

(** The sum of all the counts of a list of byte maps. *)
Definition sumCounts (m : list (string * Z)) : Z :=
  fold_right (fun kv acc => snd kv + acc) 0 m.

Definition sumAllCounts (maps : list (list (string * Z))) : Z :=
  fold_right (fun m acc => sumCounts m + acc) 0 maps.

(** Every value of the dictionary is a number. *)
Definition numeric (o : list (string * jsval)) : Prop :=
  Forall (fun kv => exists n, snd kv = Num n) o.

(** ** Sample data for the scenarios *)

Definition sampleRepo (i : nat) : Repository :=
  mkRepository ("repo" +:+ pretty i) false 100 None.

Definition sampleRepos (n : nat) : list Repository := map sampleRepo (seq 0 n).

Definition sampleTotals (n : nat) : LangTotals :=
  map (fun i => ("lang" +:+ pretty i, Num 1)) (seq 0 n).

(** An upstream that answers every user, repository-list and language
    request in the same way, and completes the language requests in the
    order in which they were issued. *)
Definition constUpstream (user : Fetched Profile) (repos : Fetched ReposJson)
    (languages : string -> Fetched LangsJson) : Upstream :=
  mkUpstream (fun _ => user) (fun _ => repos) (fun _ repo => languages repo)
    (fun repos => repos) (fun repos => Permutation_refl repos).

Definition octocat : Profile := mkProfile "octocat" 45 12.

Definition ok {A} (body : A) : Fetched A := inr (mkHttpResponse 200 (inr body)).

(** Scenario D: six repositories whose language requests all succeed, the
    requests completing in the reverse of the order of issue. *)
Definition scenarioBytes (repo : Repository) : list (string * Z) :=
  if String.eqb (name repo) "repo0" then [("JavaScript", 1200); ("CSS", 300)]
  else if String.eqb (name repo) "repo1" then [("Python", 5000)]
  else if String.eqb (name repo) "repo2" then [("JavaScript", 800); ("HTML", 150)]
  else if String.eqb (name repo) "repo3" then []
  else if String.eqb (name repo) "repo4" then [("Python", 250); ("Shell", 40)]
  else [("CSS", 60); ("JavaScript", 10)].

Definition scenarioD : Upstream :=
  mkUpstream (fun _ => ok octocat) (fun _ => ok (ReposArray (sampleRepos 6)))
    (fun _ repo => ok (LangsObject (byteMap (scenarioBytes (mkRepository repo false 100 None)))))
    (fun repos => rev repos) (fun repos => Permutation_sym (Permutation_rev repos)).

(** Scenario C: a fork and a repository of size 50 next to a plain one. *)
Definition scenarioCRepos : list Repository :=
  [mkRepository "forked" true 4000 (Some "A fork");
   mkRepository "tiny" false 50 None;
   mkRepository "plain" false 300 (Some "A plain project")].

Definition scenarioC : Upstream :=
  constUpstream (ok octocat) (ok (ReposArray scenarioCRepos)) (fun _ => ok LangsNull).

(** Upstream answers the user and the repository-list requests with
    status 403: the body of the former parses, the body of the latter is an
    error object, not an array. *)
Definition errorObject : ReposJson := NotAnArray.

Definition rateLimited : Upstream :=
  constUpstream (inr (mkHttpResponse 403 (inr (mkProfile "" 0 0))))
    (inr (mkHttpResponse 403 (inr errorObject)))
    (fun _ => inr (mkHttpResponse 403 (inr LangsNull))).

Definition unknownUser : Upstream :=
  constUpstream (inr (mkHttpResponse 404 (inl (mkExn "body not read"))))
    (ok (ReposArray [])) (fun _ => ok LangsNull).

Definition badToken : Upstream :=
  constUpstream (inr (mkHttpResponse 401 (inl (mkExn "body not read"))))
    (ok (ReposArray [])) (fun _ => ok LangsNull).

(** The repository list comes back as an object instead of an array. *)
Definition reposNotArray : Upstream :=
  constUpstream (ok octocat) (ok NotAnArray) (fun _ => ok LangsNull).

(** The language request of the one repository is answered with status 404
    and the error object of upstream as its body. *)
Definition notFoundBody : LangsJson :=
  LangsObject
    [("message", Str "Not Found");
     ("documentation_url", Str "https://docs.github.com/rest/repos/repos#list-repository-languages");
     ("status", Str "404")].

Definition goneRepo : Repository := mkRepository "gone" false 300 None.

Definition languagesNotFound : Upstream :=
  constUpstream (ok octocat) (ok (ReposArray [goneRepo]))
    (fun _ => inr (mkHttpResponse 404 (inr notFoundBody))).

(** The same repository, its language request failing on the network. *)
Definition languagesUnreachable : Upstream :=
  constUpstream (ok octocat) (ok (ReposArray [goneRepo]))
    (fun _ => inl (mkExn "request to https://api.github.com failed")).

(** ** Further definitions for the properties of the handler *)


(** The user request fails on the network. *)
Definition userUnreachable : Upstream :=
  constUpstream (inl (mkExn "getaddrinfo ENOTFOUND api.github.com"))
    (ok (ReposArray [])) (fun _ => ok LangsNull).

(** The body of the repository list is not JSON. *)
Definition reposUnparsable : Upstream :=
  constUpstream (ok octocat)
    (inr (mkHttpResponse 502 (inl (mkExn "Unexpected token < in JSON at position 0"))))
    (fun _ => ok LangsNull).

(** Scenario D with the language requests completing in the order of
    issue. *)
Definition scenarioDInOrder : Upstream :=
  mkUpstream (users scenarioD) (userRepos scenarioD) (repoLanguages scenarioD)
    (fun repos => repos) (fun repos => Permutation_refl repos).

(** Scenario C with a language map for every repository. *)
Definition scenarioCLanguages : Upstream :=
  constUpstream (ok octocat) (ok (ReposArray scenarioCRepos))
    (fun repo =>
       if String.eqb repo "forked" then ok (LangsObject [("C", Num 90000); ("Shell", Num 120)])
       else if String.eqb repo "tiny" then ok (LangsObject [("HTML", Num 40)])
       else ok (LangsObject [("Python", Num 7000); ("Shell", Num 30)])).

(** Two repositories whose byte maps have the key "constructor". *)
Definition constructorBytes (repo : Repository) : list (string * Z) :=
  if String.eqb (name repo) "a" then [("constructor", 5)] else [("constructor", 7)].

Definition constructorRepos : list Repository :=
  [mkRepository "a" false 100 None; mkRepository "b" false 100 None].

Definition constructorLanguages : Upstream :=
  constUpstream (ok octocat) (ok (ReposArray constructorRepos))
    (fun repo => ok (LangsObject (byteMap (constructorBytes (mkRepository repo false 100 None))))).

(** * The dashboard

    The functions of the React application that compute what is shown
    from a response of the server. *)

(** ** Chart data *)

(** [s.replace (pat, by)] with a string for [pat]: the first occurrence
    of [pat] is replaced. *)
Fixpoint dropString (n : nat) (s : string) : string :=
  match n, s with
  | O, _ => s
  | S n', String _ rest => dropString n' rest
  | S _, EmptyString => EmptyString
  end.

Fixpoint replaceFirst (s pat by_ : string) : string :=
  if startsWith s pat then by_ +:+ dropString (String.length pat) s
  else match s with
       | EmptyString => EmptyString
       | String c rest => String c (replaceFirst rest pat by_)
       end.

(** [entries.sort (([, a], [, b]) => b - a)] on entries whose values are
    numbers: by decreasing value. The sort of arrays is stable, entries of
    equal value keep the order they had, which determines the result; the
    insertion below, from the last entry to the first, computes it. *)
Fixpoint insertByBytes (x : string * Z) (sorted : list (string * Z)) : list (string * Z) :=
  match sorted with
  | [] => [x]
  | y :: rest =>
      if snd x <? snd y then y :: insertByBytes x rest else x :: y :: rest
  end.

Definition sortByBytes (entries : list (string * Z)) : list (string * Z) :=
  fold_right insertByBytes [] entries.

(** The data object given to the doughnut chart: its labels, and the one
    dataset it has. *)
Record ChartData := mkChartData {
  labels : list string;
  data : list Z;
  backgroundColor : list string;
  borderColor : list string;
  borderWidth : Z
}.

Definition colors : list string :=
  ["rgba(255, 99, 132, 0.8)"; "rgba(54, 162, 235, 0.8)"; "rgba(255, 206, 86, 0.8)";
   "rgba(75, 192, 192, 0.8)"; "rgba(153, 102, 255, 0.8)"; "rgba(255, 159, 64, 0.8)";
   "rgba(199, 199, 199, 0.8)"; "rgba(83, 102, 255, 0.8)"].

(** [data.reduce ((sum, bytes) => sum + bytes, 0)]. *)
Definition sumBytes (data : list Z) : Z := fold_left Z.add data 0.

Section LanguageChart.

(** [((bytes / totalBytes) * 100).toFixed (1)], the one step of the function
    that computes on fractions; it is taken as given. *)
Variable percentage : Z -> Z -> string.

(** The argument is [result.languagesByBytes], with numbers for values;
    [None] when [result] is [null] or has no such field. *)
Definition getLanguageChartData (languagesByBytes : option (list (string * Z)))
    : option ChartData :=
  match languagesByBytes with
  | None => None
  | Some [] => None
  | Some entries =>
      let sortedLangs := sortByBytes entries in
      (* Limit to top 8 languages for clarity *)
      let labels := take 8 (map fst sortedLangs) in
      let data := take 8 (map snd sortedLangs) in
      let totalBytes := sumBytes data in
      let percentages := map (fun bytes => percentage bytes totalBytes +:+ "%") data in
      Some (mkChartData
              (map (fun '(label, percent) => label +:+ " (" +:+ percent +:+ ")")
                   (zip labels percentages))
              data
              (take (length data) colors)
              (map (fun c => replaceFirst c "0.8" "1") (take (length data) colors))
              1)
  end.

End LanguageChart.

(** The data object given to the bar chart of annual activity. *)
Record ActivityChartData := mkActivityChartData {
  activityLabels : list string;
  activityLabel : string;
  activityData : list Z;
  activityBackgroundColor : string;
  activityBorderColor : string;
  activityBorderWidth : Z
}.

(** [Array.from ({ length: 52 }, (_, i) => `Week ${52 - i}`)]. *)
Definition weekLabels : list string :=
  map (fun i => "Week " +:+ pretty (52 - Z.of_nat i)) (seq 0 52).

(** The argument is [None] when [annualActivity] is [null] or undefined. *)
Definition getAnnualActivityChartData (annualActivity : option (list Z))
    : option ActivityChartData :=
  match annualActivity with
  | None => None
  | Some [] => None
  | Some counts =>
      let labels := weekLabels in
      let labels := <[0%nat := "Current Week"]> labels in
      let labels := <[51%nat := "Year Ago"]> labels in
      Some (mkActivityChartData labels "Commits/Pushes (Mock Data)" counts
              "rgba(75, 192, 192, 0.6)" "rgba(75, 192, 192, 1)" 1)
  end.

(** ** Requests of the dashboard *)

(** What [await axios.get (url)] gives: it throws when no response
    arrives, resolves with the response when its status is 2xx, and throws
    an error that holds the response otherwise. *)
Inductive AxiosOutcome :=
| NoReply (message : string)
| Reply (response : Response).

(** [err.message] of the error thrown for a response that is not 2xx. *)
Definition requestFailed (status : Z) : string :=
  "Request failed with status code " +:+ pretty status.

(** [err.response?.data?.error]. *)
Definition errorOf (body : Payload) : option string :=
  match body with
  | ErrorJson error => Some error
  | ResultJson _ => None
  end.

(** [a || b] where [a] may be undefined: undefined and the empty string
    are falsy. *)
Definition orElse (a : option string) (b : string) : string :=
  match a with
  | Some (String c rest) => String c rest
  | _ => b
  end.

Definition is2xx (status : Z) : bool := (200 <=? status) && (status <? 300).

(** [fetchUserData] of the comparison page: the value it returns. *)
Definition fetchUserData (outcome : AxiosOutcome) : Payload :=
  match outcome with
  | Reply response =>
      if is2xx (statusCode response) then payload response
      else ErrorJson (orElse (errorOf (payload response))
                        (requestFailed (statusCode response)))
  | NoReply message => ErrorJson message
  end.

(** [analyze] of the main page: the value it stores as [result]. *)
Definition analyzeResult (outcome : AxiosOutcome) : Payload :=
  match outcome with
  | Reply response =>
      if is2xx (statusCode response) then payload response
      else ErrorJson (orElse (Some (orElse (errorOf (payload response))
                                      (requestFailed (statusCode response))))
                        "An unknown error occurred.")
  | NoReply message => ErrorJson (orElse (Some message) "An unknown error occurred.")
  end.

(** * Properties *)

(** ** The score calculator *)

(** [floor_quot] is the floor of the exact quotient. *)
Lemma floor_quot_spec x d q :
  0 < d -> (ScoreSpec.floor_quot x d = q <-> q * d <= x < (q + 1) * d).
Proof.
  unfold ScoreSpec.floor_quot. intros Hd. split.
  - intros <-. pose proof (Z.mul_div_le x d Hd).
    pose proof (Z.mul_succ_div_gt x d Hd). lia.
  - intros Hq. symmetry. apply (Z.div_unique_pos x d q (x - q * d)); lia.
Qed.

Lemma score_as_spec profile repos langTotals :
  calculateHireabilityScore profile repos langTotals =
  ScoreSpec.score (followers profile) (Z.of_nat (length repos))
                  (Z.of_nat (length (Object_keys langTotals))).
Proof. reflexivity. Qed.

(** C1. The score is [min 100 (max 0 (T_f + T_v + T_d))] with the three
    capped terms of the specification, computed from the follower count,
    the length of the repository list and the number of keys of the
    language totals; with 45 followers, 12 repositories and 3 languages the
    terms are 4, 4 and 20 and the score is 28. *)
Theorem C1_score_formula :
  (forall profile repos langTotals,
     calculateHireabilityScore profile repos langTotals =
     Z.min 100 (Z.max 0
       (ScoreSpec.T_f (followers profile)
        + ScoreSpec.T_v (Z.of_nat (length repos))
        + ScoreSpec.T_d (Z.of_nat (length (Object_keys langTotals)))))) /\
  (forall login public_repos,
     ScoreSpec.T_f 45 = 4 /\ ScoreSpec.T_v 12 = 4 /\ ScoreSpec.T_d 3 = 20 /\
     calculateHireabilityScore (mkProfile login 45 public_repos)
       (sampleRepos 12) (sampleTotals 3) = 28).
Proof.
  split.
  - intros. apply score_as_spec.
  - intros. repeat split; reflexivity.
Qed.

(** C2. The score lies between 0 and 100 for every profile, repository
    list and language totals: the last step clamps it. *)
Theorem C2_score_bounds profile repos langTotals :
  0 <= calculateHireabilityScore profile repos langTotals <= 100.
Proof.
  unfold calculateHireabilityScore. lia.
Qed.

Lemma score_monotone f1 f2 n1 n2 k1 k2 :
  f1 <= f2 -> n1 <= n2 -> k1 <= k2 ->
  ScoreSpec.score f1 n1 k1 <= ScoreSpec.score f2 n2 k2.
Proof.
  intros Hf Hn Hk.
  unfold ScoreSpec.score, ScoreSpec.T_f, ScoreSpec.T_v, ScoreSpec.T_d, ScoreSpec.floor_quot.
  pose proof (Z.div_le_mono f1 f2 10 ltac:(lia) Hf).
  pose proof (Z.div_le_mono n1 n2 5 ltac:(lia) Hn).
  nia.
Qed.

(** C8. The score does not decrease when the follower count grows, when
    the repository list gets longer, or when the language totals get more
    keys, the other two inputs being the same; and one more repository
    raises the score only when the new length is a multiple of 5. *)
Theorem C8_score_monotone :
  (forall p1 p2 repos langTotals,
     followers p1 <= followers p2 ->
     calculateHireabilityScore p1 repos langTotals
     <= calculateHireabilityScore p2 repos langTotals) /\
  (forall p repos1 repos2 langTotals,
     (length repos1 <= length repos2)%nat ->
     calculateHireabilityScore p repos1 langTotals
     <= calculateHireabilityScore p repos2 langTotals) /\
  (forall p repo repos langTotals,
     calculateHireabilityScore p repos langTotals
     < calculateHireabilityScore p (repo :: repos) langTotals ->
     Z.of_nat (length (repo :: repos)) mod 5 = 0) /\
  (forall p repos langTotals1 langTotals2,
     (length (Object_keys langTotals1) <= length (Object_keys langTotals2))%nat ->
     calculateHireabilityScore p repos langTotals1
     <= calculateHireabilityScore p repos langTotals2).
Proof.
  repeat split; intros *; rewrite !score_as_spec.
  - intros. apply score_monotone; lia.
  - intros. apply score_monotone; lia.
  - cbn [length]. rewrite Nat2Z.inj_succ.
    unfold ScoreSpec.score, ScoreSpec.T_f, ScoreSpec.T_v, ScoreSpec.T_d, ScoreSpec.floor_quot.
    generalize (Z.of_nat (length repos)) (Nat2Z.is_nonneg (length repos)).
    intros n Hn Hlt.
    destruct (Z.eq_dec (Z.succ n / 5) (n / 5)) as [Heq | Hne].
    + rewrite Heq in Hlt. lia.
    + clear Hlt. revert Hne.
      pose proof (Z.div_mod n 5 ltac:(lia)).
      pose proof (Z.mod_pos_bound n 5 ltac:(lia)).
      pose proof (Z.div_mod (Z.succ n) 5 ltac:(lia)).
      pose proof (Z.mod_pos_bound (Z.succ n) 5 ltac:(lia)).
      lia.
  - intros. apply score_monotone; lia.
Qed.

Lemma C8_score_monotone_witness :
  calculateHireabilityScore (mkProfile "a" 9 0) [] []
  <= calculateHireabilityScore (mkProfile "a" 45 0) [] [] /\
  calculateHireabilityScore (mkProfile "a" 0 0) (sampleRepos 4) []
  <= calculateHireabilityScore (mkProfile "a" 0 0) (sampleRepos 5) [] /\
  Z.of_nat (length (sampleRepos 5)) mod 5 = 0 /\
  calculateHireabilityScore (mkProfile "a" 0 0) [] (sampleTotals 1)
  <= calculateHireabilityScore (mkProfile "a" 0 0) [] (sampleTotals 2).
Proof.
  destruct C8_score_monotone as (Hf & Hv & Hstep & Hd).
  split; [| split; [| split]].
  - apply Hf. simpl. lia.
  - apply Hv. simpl. lia.
  - apply (Hstep (mkProfile "a" 0 0) (sampleRepo 0) (map sampleRepo (seq 1 4)) []).
    vm_compute. reflexivity.
  - apply Hd. simpl. lia.
Defined.

(** ** The repository filter *)

Lemma startsWith_spec s pat :
  startsWith s pat = true <-> exists after, s = pat +:+ after.
Proof.
  revert s. induction pat as [| c pat IH]; intros s; simpl.
  - split; [intros _; exists s; reflexivity | reflexivity].
  - destruct s as [| c' s].
    + split; [discriminate | intros [after Hafter]; discriminate].
    + destruct (Ascii.eqb_spec c c') as [-> | Hne]; simpl.
      * rewrite IH. split; intros [after Hafter]; exists after.
        -- now rewrite Hafter.
        -- now injection Hafter.
      * split; [discriminate |].
        intros [after Hafter]. injection Hafter as Hc _. congruence.
Qed.

Lemma includes_spec s pat :
  includes s pat = true <-> containsSubstring s pat.
Proof.
  unfold containsSubstring. induction s as [| c s IH]; cbn [includes].
  - destruct (startsWith "" pat) eqn:Hp.
    + split; [| reflexivity]. intros _.
      apply startsWith_spec in Hp as [after Hafter]. exists "", after. exact Hafter.
    + split; [discriminate |]. intros (before & after & Heq).
      destruct before; [| discriminate]. simpl in Heq.
      assert (startsWith "" pat = true) by (apply startsWith_spec; eauto).
      congruence.
  - destruct (startsWith (String c s) pat) eqn:Hp.
    + split; [| reflexivity]. intros _.
      apply startsWith_spec in Hp as [after Hafter]. exists "", after. exact Hafter.
    + rewrite IH. split.
      * intros (before & after & ->). exists (String c before), after. reflexivity.
      * intros (before & after & Heq). destruct before as [| c' before].
        -- simpl in Heq.
           assert (startsWith (String c s) pat = true) by (apply startsWith_spec; eauto).
           congruence.
        -- injection Heq as _ ->. eauto.
Qed.

Lemma keepRepo_spec repo : keepRepo repo = false <-> lowValue repo.
Proof.
  unfold keepRepo, lowValue, minLinesOfCode.
  destruct (fork repo); [split; auto |].
  destruct (Z.ltb_spec (size repo) 100) as [Hlt | Hge]; [split; auto |].
  destruct (description repo) as [d |]; simpl.
  - destruct d as [| c d]; simpl truthyString; cbv beta iota.
    + split; [discriminate |].
      intros [? | [? | (d & Hd & before & after & Heq)]]; [discriminate | lia |].
      injection Hd as <-. simpl in Heq. destruct before; discriminate.
    + rewrite andb_true_l.
      destruct (includes (toLowerCase (String c d)) "template") eqn:Hinc.
      * split; [| reflexivity]. intros _. right. right.
        exists (String c d). split; [reflexivity |]. now apply includes_spec.
      * split; [discriminate |].
        intros [? | [? | (d' & Hd & Hsub)]]; [discriminate | lia |].
        injection Hd as <-. apply includes_spec in Hsub. congruence.
  - split; [discriminate |].
    intros [? | [? | (d & Hd & _)]]; [discriminate | lia | discriminate].
Qed.

Lemma keepRepo_true repo : keepRepo repo = true <-> ~ lowValue repo.
Proof.
  rewrite <- keepRepo_spec. destruct (keepRepo repo); split; congruence.
Qed.

(** C4. With the flag off the filter is the identity. With the flag on it
    goes through the list in order, drops a repository exactly when it is
    a fork, or its size is below 100, or its lowercased description
    contains "template", and keeps every other one where it stands: the
    result is a sublist of the input with exactly the repositories that
    meet none of the three conditions. *)
Theorem C4_filter :
  (forall repos, applyFilter repos false = repos) /\
  applyFilter [] true = [] /\
  (forall repo repos, lowValue repo ->
     applyFilter (repo :: repos) true = applyFilter repos true) /\
  (forall repo repos, ~ lowValue repo ->
     applyFilter (repo :: repos) true = repo :: applyFilter repos true) /\
  (forall repos, sublist (applyFilter repos true) repos) /\
  (forall repos repo,
     repo ∈ applyFilter repos true <-> repo ∈ repos /\ ~ lowValue repo).
Proof.
  unfold applyFilter, filterLowValueRepos.
  split; [reflexivity |]. split; [reflexivity |].
  split; [| split; [| split]].
  - intros repo repos Hlow. apply keepRepo_spec in Hlow. simpl. now rewrite Hlow.
  - intros repo repos Hkeep. apply keepRepo_true in Hkeep. simpl. now rewrite Hkeep.
  - induction repos as [| repo repos IH]; simpl.
    + constructor.
    + destruct (keepRepo repo); now constructor.
  - intros repos repo. rewrite !list_elem_of_In, filter_In, keepRepo_true. reflexivity.
Qed.

Lemma C4_filter_witness :
  applyFilter scenarioCRepos false = scenarioCRepos /\
  lowValue (mkRepository "forked" true 4000 (Some "A fork")) /\
  lowValue (mkRepository "tiny" false 50 None) /\
  ~ lowValue (mkRepository "plain" false 300 (Some "A plain project")) /\
  applyFilter scenarioCRepos true = [mkRepository "plain" false 300 (Some "A plain project")].
Proof.
  destruct C4_filter as (Hid & Hnil & Hdrop & Hkeep & _ & _).
  assert (Hforked : lowValue (mkRepository "forked" true 4000 (Some "A fork")))
    by (left; reflexivity).
  assert (Htiny : lowValue (mkRepository "tiny" false 50 None))
    by (right; left; simpl; lia).
  assert (Hplain : ~ lowValue (mkRepository "plain" false 300 (Some "A plain project")))
    by (apply keepRepo_true; reflexivity).
  split; [apply Hid |]. split; [exact Hforked |]. split; [exact Htiny |].
  split; [exact Hplain |].
  unfold scenarioCRepos.
  rewrite (Hdrop _ _ Hforked), (Hdrop _ _ Htiny), (Hkeep _ _ Hplain), Hnil.
  reflexivity.
Defined.

(** ** The dictionary of language totals *)

Lemma getOwn_None k (o : LangTotals) :
  getOwn k o = None <-> k ∉ Object_keys o.
Proof.
  induction o as [| [k' v] o IH]; simpl.
  - split; [intros _; apply not_elem_of_nil | reflexivity].
  - rewrite not_elem_of_cons. destruct (String.eqb_spec k k') as [-> | Hne].
    + split; [discriminate | intros [[] _]; reflexivity].
    + rewrite IH. tauto.
Qed.

Lemma getOwn_Some_key k v (o : LangTotals) :
  getOwn k o = Some v -> k ∈ Object_keys o.
Proof.
  induction o as [| [k' v'] o IH]; simpl; [discriminate |].
  destruct (String.eqb_spec k k') as [-> | Hne].
  - intros _. apply list_elem_of_here.
  - intros Hk. apply list_elem_of_further, IH, Hk.
Qed.

Lemma getOwn_elem_of k v (o : LangTotals) :
  NoDup (Object_keys o) -> (getOwn k o = Some v <-> (k, v) ∈ o).
Proof.
  induction o as [| [k' v'] o IH]; simpl; intros Hnd.
  - split; [discriminate | intros H; inversion H].
  - apply NoDup_cons in Hnd as [Hk' Hnd]. rewrite elem_of_cons.
    destruct (String.eqb_spec k k') as [-> | Hne].
    + split.
      * intros [= ->]. now left.
      * intros [[= ->] | Hin]; [reflexivity |].
        exfalso. apply Hk'. apply (list_elem_of_fmap_2 fst) in Hin. exact Hin.
    + rewrite (IH Hnd). split; [now right |].
      intros [[= -> ->] | Hin]; [congruence | exact Hin].
Qed.

(** Replacing the value of a key that is there. *)
Lemma replaceOwn_keys k v (o : LangTotals) :
  Object_keys (replaceOwn k v o) = Object_keys o.
Proof.
  induction o as [| [k' v'] o IH]; simpl; [reflexivity |].
  destruct (String.eqb k k'); simpl; [reflexivity | now rewrite IH].
Qed.

Lemma replaceOwn_getOwn_eq k v (o : LangTotals) :
  getOwn k o <> None -> getOwn k (replaceOwn k v o) = Some v.
Proof.
  induction o as [| [k' v'] o IH]; simpl; [congruence |].
  destruct (String.eqb_spec k k') as [-> | Hne]; simpl.
  - now rewrite String.eqb_refl.
  - destruct (String.eqb_spec k k'); [congruence | exact IH].
Qed.

Lemma replaceOwn_getOwn_ne k k' v (o : LangTotals) :
  k <> k' -> getOwn k' (replaceOwn k v o) = getOwn k' o.
Proof.
  intros Hne. induction o as [| [k0 v0] o IH]; simpl; [reflexivity |].
  destruct (String.eqb_spec k k0) as [-> | Hne0]; simpl.
  - destruct (String.eqb_spec k' k0); [congruence | reflexivity].
  - now rewrite IH.
Qed.

(** Inserting a new array index. *)
Lemma insertIndexed_keys_perm i k v (o : LangTotals) :
  Object_keys (insertIndexed i k v o) ≡ₚ k :: Object_keys o.
Proof.
  induction o as [| [k' v'] o IH]; simpl; [reflexivity |].
  destruct (arrayIndex k') as [j |]; [| reflexivity].
  destruct (j <? i)%N; simpl; [| reflexivity].
  rewrite IH. apply perm_swap.
Qed.

Lemma insertIndexed_keys_sublist i k v (o : LangTotals) :
  sublist (Object_keys o) (Object_keys (insertIndexed i k v o)).
Proof.
  induction o as [| [k' v'] o IH]; simpl; [apply sublist_nil_l |].
  destruct (arrayIndex k') as [j |]; [| now apply sublist_cons].
  destruct (j <? i)%N; simpl; [now apply sublist_skip | now apply sublist_cons].
Qed.

Lemma insertIndexed_getOwn_eq i k v (o : LangTotals) :
  getOwn k o = None -> getOwn k (insertIndexed i k v o) = Some v.
Proof.
  induction o as [| [k' v'] o IH]; simpl.
  - now rewrite String.eqb_refl.
  - destruct (String.eqb_spec k k') as [-> | Hne]; [discriminate |]. intros Hk.
    destruct (arrayIndex k') as [j |]; simpl.
    + destruct (j <? i)%N; simpl.
      * destruct (String.eqb_spec k k'); [congruence | now apply IH].
      * now rewrite String.eqb_refl.
    + now rewrite String.eqb_refl.
Qed.

Lemma insertIndexed_getOwn_ne i k k' v (o : LangTotals) :
  k <> k' -> getOwn k' (insertIndexed i k v o) = getOwn k' o.
Proof.
  intros Hne. induction o as [| [k0 v0] o IH]; simpl.
  - destruct (String.eqb_spec k' k); [congruence | reflexivity].
  - destruct (arrayIndex k0) as [j |]; simpl.
    + destruct (j <? i)%N; simpl.
      * now rewrite IH.
      * destruct (String.eqb_spec k' k); [congruence | reflexivity].
    + destruct (String.eqb_spec k' k); [congruence | reflexivity].
Qed.

Lemma getOwn_app_ne k k' v (o : LangTotals) :
  k <> k' -> getOwn k' (o ++ [(k, v)]) = getOwn k' o.
Proof.
  intros Hne. induction o as [| [k0 v0] o IH]; simpl.
  - destruct (String.eqb_spec k' k); [congruence | reflexivity].
  - now rewrite IH.
Qed.

Lemma getOwn_app_eq k v (o : LangTotals) :
  getOwn k o = None -> getOwn k (o ++ [(k, v)]) = Some v.
Proof.
  induction o as [| [k0 v0] o IH]; simpl.
  - now rewrite String.eqb_refl.
  - destruct (String.eqb k k0); [discriminate | exact IH].
Qed.

(** Assigning to a key. *)
Lemma setProp_proto v (o : LangTotals) : setProp "__proto__" v o = o.
Proof. reflexivity. Qed.

Lemma setProp_getOwn_eq k v (o : LangTotals) :
  k <> "__proto__" -> getOwn k (setProp k v o) = Some v.
Proof.
  intros Hk. unfold setProp.
  destruct (String.eqb_spec k "__proto__"); [contradiction |].
  destruct (getOwn k o) eqn:Hown.
  - apply replaceOwn_getOwn_eq. congruence.
  - destruct (arrayIndex k).
    + now apply insertIndexed_getOwn_eq.
    + now apply getOwn_app_eq.
Qed.

Lemma setProp_getOwn_ne k k' v (o : LangTotals) :
  k <> k' -> getOwn k' (setProp k v o) = getOwn k' o.
Proof.
  intros Hne. unfold setProp. destruct (String.eqb k "__proto__"); [reflexivity |].
  destruct (getOwn k o).
  - now apply replaceOwn_getOwn_ne.
  - destruct (arrayIndex k).
    + now apply insertIndexed_getOwn_ne.
    + now apply getOwn_app_ne.
Qed.

(** The keys after an assignment: a key that is there, and the key
    ["__proto__"], add nothing; any other key is added once. *)
Lemma setProp_keys_perm k v (o : LangTotals) :
  Object_keys (setProp k v o) ≡ₚ
  if String.eqb k "__proto__" then Object_keys o
  else match getOwn k o with
       | Some _ => Object_keys o
       | None => k :: Object_keys o
       end.
Proof.
  unfold setProp. destruct (String.eqb k "__proto__"); [reflexivity |].
  destruct (getOwn k o).
  - now rewrite replaceOwn_keys.
  - destruct (arrayIndex k).
    + apply insertIndexed_keys_perm.
    + unfold Object_keys. rewrite map_app. simpl. symmetry. apply Permutation_cons_append.
Qed.

Lemma setProp_keys_elem k v (o : LangTotals) k' :
  k' ∈ Object_keys (setProp k v o) <->
  k' ∈ Object_keys o \/ (k' = k /\ k <> "__proto__").
Proof.
  rewrite setProp_keys_perm. destruct (String.eqb_spec k "__proto__") as [-> | Hk].
  - split; [now left | intros [Hin | [_ Hne]]; [exact Hin | congruence]].
  - destruct (getOwn k o) as [v' |] eqn:Hown.
    + split; [now left |]. intros [Hin | [-> _]]; [exact Hin |].
      exact (getOwn_Some_key _ _ _ Hown).
    + rewrite elem_of_cons. split.
      * intros [-> | Hin]; [now right | now left].
      * intros [Hin | [-> _]]; [now right | now left].
Qed.

(** The keys that are there stay, in the order they have. *)
Lemma setProp_keys_sublist k v (o : LangTotals) :
  sublist (Object_keys o) (Object_keys (setProp k v o)).
Proof.
  unfold setProp. destruct (String.eqb k "__proto__"); [reflexivity |].
  destruct (getOwn k o).
  - now rewrite replaceOwn_keys.
  - destruct (arrayIndex k).
    + apply insertIndexed_keys_sublist.
    + unfold Object_keys. rewrite map_app. apply sublist_inserts_r. reflexivity.
Qed.

Lemma setProp_NoDup k v (o : LangTotals) :
  NoDup (Object_keys o) -> NoDup (Object_keys (setProp k v o)).
Proof.
  intros Hnd. rewrite setProp_keys_perm. destruct (String.eqb k "__proto__"); [exact Hnd |].
  destruct (getOwn k o) eqn:Hown; [exact Hnd |].
  apply NoDup_cons. split; [now apply getOwn_None | exact Hnd].
Qed.

Lemma replaceOwn_numeric k n (o : LangTotals) :
  numeric o -> numeric (replaceOwn k (Num n) o).
Proof.
  unfold numeric. induction 1 as [| [k' v'] o Hv Ho IH]; simpl; [constructor |].
  destruct (String.eqb k k'); constructor; auto. now exists n.
Qed.

Lemma insertIndexed_numeric i k n (o : LangTotals) :
  numeric o -> numeric (insertIndexed i k (Num n) o).
Proof.
  unfold numeric. induction 1 as [| [k' v'] o Hv Ho IH]; simpl.
  - repeat constructor. now exists n.
  - destruct (arrayIndex k') as [j |]; [destruct (j <? i)%N |];
      repeat (constructor; auto); now exists n.
Qed.

Lemma setProp_numeric k n (o : LangTotals) :
  numeric o -> numeric (setProp k (Num n) o).
Proof.
  intros Hnum. unfold setProp. destruct (String.eqb k "__proto__"); [exact Hnum |].
  destruct (getOwn k o).
  - now apply replaceOwn_numeric.
  - destruct (arrayIndex k).
    + now apply insertIndexed_numeric.
    + apply Forall_app. split; [exact Hnum |]. repeat constructor. now exists n.
Qed.

Lemma addLanguages_NoDup (o : LangTotals) entries :
  NoDup (Object_keys o) -> NoDup (Object_keys (addLanguages o entries)).
Proof.
  unfold addLanguages. revert o.
  induction entries as [| [lang bytes] entries IH]; intros o Hnd; simpl; [exact Hnd |].
  apply IH. now apply setProp_NoDup.
Qed.

Lemma mergeAll_NoDup maps : NoDup (Object_keys (mergeAll maps)).
Proof.
  unfold mergeAll. assert (Hnd : NoDup (Object_keys [])) by constructor.
  revert Hnd. generalize (@nil (string * jsval)).
  induction maps as [| m maps IH]; intros o Hnd; simpl; [exact Hnd |].
  apply IH. now apply addLanguages_NoDup.
Qed.

(** Two dictionaries with the same value under every key hold the same
    entries, possibly in another order. *)
Lemma totals_ext (o1 o2 : LangTotals) :
  NoDup (Object_keys o1) -> NoDup (Object_keys o2) ->
  (forall k, getOwn k o1 = getOwn k o2) -> o1 ≡ₚ o2.
Proof.
  intros Hnd1 Hnd2 Hext. apply NoDup_Permutation.
  - exact (NoDup_fmap_1 fst o1 Hnd1).
  - exact (NoDup_fmap_1 fst o2 Hnd2).
  - intros [k v]. rewrite <- !getOwn_elem_of by assumption. now rewrite Hext.
Qed.

(** ** Aggregation of byte maps *)

Lemma roundDouble_small z : Z.abs z < 2 ^ 53 -> roundDouble z = z.
Proof.
  intros Hz. unfold roundDouble. cbv zeta.
  destruct (Z.ltb_spec (Z.abs z) (2 ^ 53)); [reflexivity | lia].
Qed.

Lemma numeric_getOwn k v (o : LangTotals) :
  numeric o -> getOwn k o = Some v -> exists n, v = Num n.
Proof.
  unfold numeric. induction 1 as [| [k' v'] o Hv Ho IH]; simpl; [discriminate |].
  destruct (String.eqb k k'); [| exact IH]. intros [= <-]. exact Hv.
Qed.

(** Under a key that [Object.prototype] does not hold, reading the object
    reads what the object holds itself. *)
Lemma getProp_own k (o : LangTotals) :
  inheritedText k = None -> getProp k o = getOwn k o.
Proof.
  intros Hk. unfold getProp. rewrite Hk. now destruct (getOwn k o).
Qed.

Lemma inheritedText_proto k : inheritedText k = None -> k <> "__proto__".
Proof. intros Hk ->. discriminate. Qed.

(** On numbers, [(langTotals[lang] || 0)] is the count so far. *)
Lemma orZero_numeric k (o : LangTotals) :
  numeric o -> orZero (getOwn k o) = Num (bytesIn k o).
Proof.
  intros Hnum. unfold bytesIn. destruct (getOwn k o) as [v |] eqn:Hk; [| reflexivity].
  destruct (numeric_getOwn k v o Hnum Hk) as [n ->]. now destruct n.
Qed.

Lemma bytesOf_absent lang m : hasLanguage lang m = false -> bytesOf lang m = 0.
Proof.
  induction m as [| [k b] m IH]; simpl; [reflexivity |].
  destruct (String.eqb lang k); simpl; [discriminate | exact IH].
Qed.

Lemma totalBytes_absent lang maps : mentioned lang maps = false -> totalBytes lang maps = 0.
Proof.
  induction maps as [| m maps IH]; simpl; [reflexivity |].
  intros [Hm Hmaps]%orb_false_elim. rewrite (bytesOf_absent _ _ Hm), (IH Hmaps). reflexivity.
Qed.

Lemma bytesOf_nonneg lang m : languageBytes m -> 0 <= bytesOf lang m.
Proof.
  induction 1 as [| [k b] m [_ Hb] Hm IH]; simpl; [lia |].
  simpl in Hb. destruct (String.eqb lang k); lia.
Qed.

Lemma totalBytes_bounds lang maps :
  Forall languageBytes maps ->
  0 <= totalBytes lang maps /\
  forall m, m ∈ maps -> bytesOf lang m <= totalBytes lang maps.
Proof.
  induction 1 as [| m maps Hm Hmaps [IH0 IH]]; simpl.
  - split; [lia | intros m Hin; inversion Hin].
  - pose proof (bytesOf_nonneg lang m Hm). split; [lia |].
    intros m' [-> | Hin]%elem_of_cons; [lia |]. specialize (IH m' Hin). lia.
Qed.

(** One byte map added to totals that are numbers, while no sum reaches
    2^53: the counts of the map are added to the counts so far. *)
Lemma addLanguages_byteMap (o : LangTotals) m :
  numeric o -> languageBytes m ->
  (forall lang, 0 <= bytesIn lang o) ->
  (forall lang, bytesIn lang o + bytesOf lang m < 2 ^ 53) ->
  numeric (addLanguages o (byteMap m)) /\
  forall lang,
    getOwn lang (addLanguages o (byteMap m)) =
    if hasLanguage lang m then Some (Num (bytesIn lang o + bytesOf lang m))
    else getOwn lang o.
Proof.
  unfold addLanguages. revert o.
  induction m as [| [k b] m IH]; intros o Hnum Hm Hpos Hbound; simpl.
  - split; [exact Hnum | reflexivity].
  - apply Forall_cons in Hm as [[Hk Hb] Hm]. simpl in Hk, Hb.
    pose proof (bytesOf_nonneg k m Hm) as Hrest.
    pose proof (Hbound k) as Hboundk. simpl in Hboundk. rewrite String.eqb_refl in Hboundk.
    pose proof (Hpos k) as Hposk.
    rewrite (getProp_own _ _ Hk), (orZero_numeric k o Hnum). cbn [jsAdd].
    rewrite roundDouble_small by lia.
    set (o1 := setProp k (Num (bytesIn k o + b)) o).
    assert (Hin1 : forall lang,
      bytesIn lang o1 = if String.eqb lang k then bytesIn k o + b else bytesIn lang o).
    { intros lang. unfold bytesIn at 1, o1.
      destruct (String.eqb_spec lang k) as [Heq | Hne].
      - subst lang. rewrite setProp_getOwn_eq; [reflexivity |].
        now apply inheritedText_proto.
      - rewrite setProp_getOwn_ne by congruence. reflexivity. }
    assert (Hnum1 : numeric o1) by now apply setProp_numeric.
    assert (Hpos1 : forall lang, 0 <= bytesIn lang o1).
    { intros lang. rewrite Hin1. destruct (String.eqb lang k); [lia | apply Hpos]. }
    assert (Hbound1 : forall lang, bytesIn lang o1 + bytesOf lang m < 2 ^ 53).
    { intros lang. rewrite Hin1. specialize (Hbound lang). simpl in Hbound.
      revert Hbound.
      destruct (String.eqb_spec lang k) as [Heq | Hne]; intros Hbound; [subst lang |]; lia. }
    destruct (IH o1 Hnum1 Hm Hpos1 Hbound1) as [Hnum' Hget]. split; [exact Hnum' |].
    intros lang. rewrite Hget, Hin1. unfold o1.
    destruct (String.eqb_spec lang k) as [Heq | Hne]; simpl.
    + subst lang. rewrite setProp_getOwn_eq by (now apply inheritedText_proto).
      destruct (hasLanguage k m) eqn:Hhas.
      * f_equal. f_equal. lia.
      * rewrite (bytesOf_absent _ _ Hhas). f_equal. f_equal. lia.
    + rewrite setProp_getOwn_ne by congruence. reflexivity.
Qed.

Lemma bytesIn_addLanguages (o : LangTotals) m lang :
  numeric o -> languageBytes m ->
  (forall lang, 0 <= bytesIn lang o) ->
  (forall lang, bytesIn lang o + bytesOf lang m < 2 ^ 53) ->
  bytesIn lang (addLanguages o (byteMap m)) = bytesIn lang o + bytesOf lang m.
Proof.
  intros Hnum Hm Hpos Hbound.
  destruct (addLanguages_byteMap o m Hnum Hm Hpos Hbound) as [_ Hget].
  unfold bytesIn at 1. rewrite Hget.
  destruct (hasLanguage lang m) eqn:Hhas; [reflexivity |].
  rewrite (bytesOf_absent _ _ Hhas). unfold bytesIn. lia.
Qed.

Lemma fold_addLanguages_byteMap (o : LangTotals) maps :
  numeric o -> Forall languageBytes maps ->
  (forall lang, 0 <= bytesIn lang o) ->
  (forall lang, bytesIn lang o + totalBytes lang maps < 2 ^ 53) ->
  forall lang,
    getOwn lang (fold_left addLanguages (map byteMap maps) o) =
    if mentioned lang maps then Some (Num (bytesIn lang o + totalBytes lang maps))
    else getOwn lang o.
Proof.
  revert o. induction maps as [| m maps IH]; intros o Hnum Hmaps Hpos Hbound lang; simpl;
    [reflexivity |].
  apply Forall_cons in Hmaps as [Hm Hmaps].
  assert (Hboundm : forall l, bytesIn l o + bytesOf l m < 2 ^ 53).
  { intros l. specialize (Hbound l). simpl in Hbound.
    destruct (totalBytes_bounds l maps Hmaps) as [H0 _]. lia. }
  destruct (addLanguages_byteMap o m Hnum Hm Hpos Hboundm) as [Hnum1 Hget].
  assert (Hin1 : forall l,
    bytesIn l (addLanguages o (byteMap m)) = bytesIn l o + bytesOf l m)
    by (intros l; now apply bytesIn_addLanguages).
  rewrite IH; [| exact Hnum1 | exact Hmaps | |].
  - rewrite Hin1. destruct (mentioned lang maps) eqn:Hmen.
    + rewrite orb_true_r. f_equal. f_equal. lia.
    + rewrite orb_false_r, Hget, (totalBytes_absent _ _ Hmen).
      destruct (hasLanguage lang m); [f_equal; f_equal; lia | reflexivity].
  - intros l. rewrite Hin1. pose proof (Hpos l). pose proof (bytesOf_nonneg l m Hm). lia.
  - intros l. rewrite Hin1. specialize (Hbound l). simpl in Hbound. lia.
Qed.

(** Merging byte maps from the empty dictionary: a language that some map
    mentions gets the sum of its bytes over all maps, no other key exists. *)
Lemma mergeAll_byteMap maps lang :
  Forall languageBytes maps ->
  (forall lang, totalBytes lang maps < 2 ^ 53) ->
  getOwn lang (mergeAll (map byteMap maps)) =
  if mentioned lang maps then Some (Num (totalBytes lang maps)) else None.
Proof.
  intros Hmaps Hbound. unfold mergeAll.
  rewrite fold_addLanguages_byteMap; [reflexivity | constructor | exact Hmaps | |].
  - intros l. unfold bytesIn. simpl. lia.
  - intros l. unfold bytesIn. simpl. apply Hbound.
Qed.

Lemma totalBytes_perm lang maps maps' :
  maps ≡ₚ maps' -> totalBytes lang maps = totalBytes lang maps'.
Proof.
  induction 1; simpl; lia.
Qed.

Lemma mentioned_perm lang maps maps' :
  maps ≡ₚ maps' -> mentioned lang maps = mentioned lang maps'.
Proof.
  induction 1 as [| m l l' _ IH | m1 m2 l | l1 l2 l3 _ IH1 _ IH2]; simpl.
  - reflexivity.
  - now rewrite IH.
  - destruct (hasLanguage lang m1), (hasLanguage lang m2); reflexivity.
  - now rewrite IH1.
Qed.

(** The tasks of the fan-out merge, in completion order, what each of them
    adds. *)
Lemma languageTask_entries up username (o : LangTotals) repo :
  languageTask up username o repo = addLanguages o (taskEntries up username repo).
Proof.
  unfold languageTask, taskEntries.
  destruct (repoLanguages up username (name repo)) as [e | lg]; [reflexivity |].
  destruct (json lg); reflexivity.
Qed.

Lemma runTasks_mergeAll up username order :
  runTasks up username order = mergeAll (map (taskEntries up username) order).
Proof.
  unfold runTasks, mergeAll. generalize (@nil (string * jsval)).
  induction order as [| repo order IH]; intros o; simpl; [reflexivity |].
  now rewrite languageTask_entries, IH.
Qed.

Lemma runTasks_bytes up username (bytes : Repository -> list (string * Z)) order :
  (forall repo, repo ∈ order -> contributes up username repo (bytes repo)) ->
  runTasks up username order = mergeAll (map byteMap (map bytes order)).
Proof.
  intros Hans. rewrite runTasks_mergeAll, map_map. f_equal.
  apply map_ext_in. intros repo Hin%list_elem_of_In.
  now apply Hans.
Qed.

Lemma bytesOf_le_sumCounts lang m : languageBytes m -> bytesOf lang m <= sumCounts m.
Proof.
  induction 1 as [| [k b] m [_ Hb] Hm IH]; simpl; [lia |].
  simpl in Hb. destruct (String.eqb lang k); lia.
Qed.

Lemma totalBytes_le_sumAllCounts lang maps :
  Forall languageBytes maps -> totalBytes lang maps <= sumAllCounts maps.
Proof.
  induction 1 as [| m maps Hm Hmaps IH]; simpl; [lia |].
  pose proof (bytesOf_le_sumCounts lang m Hm). lia.
Qed.

(** C5 (as the code has it). When what the language requests answer are
    byte maps whose keys are no names of [Object.prototype], with counts
    that are not negative and sums below 2^53, the totals are the same
    mapping whatever the order in which the tasks complete: under every
    language that some repository reports they hold the sum of its bytes
    over all repositories, they hold no other key, and two orders give the
    same entries up to their order. *)
Theorem C5_aggregation_order_independent
    up username (bytes : Repository -> list (string * Z)) (repos order : list Repository) :
  (forall repo, repo ∈ repos -> contributes up username repo (bytes repo)) ->
  (forall repo, repo ∈ repos -> languageBytes (bytes repo)) ->
  (forall lang, totalBytes lang (map bytes repos) < 2 ^ 53) ->
  order ≡ₚ repos ->
  runTasks up username order ≡ₚ runTasks up username repos /\
  (forall lang,
     getOwn lang (runTasks up username order) = getOwn lang (runTasks up username repos)) /\
  (forall lang,
     getOwn lang (runTasks up username order) =
     if mentioned lang (map bytes repos)
     then Some (Num (totalBytes lang (map bytes repos)))
     else None).
Proof.
  intros Hans Hbytes Hbound Hperm.
  assert (Hans' : forall repo, repo ∈ order -> contributes up username repo (bytes repo)).
  { intros repo Hin. apply Hans. now rewrite <- Hperm. }
  assert (Hmaps : map bytes order ≡ₚ map bytes repos) by now apply Permutation_map.
  assert (Hall : Forall languageBytes (map bytes repos)).
  { apply Forall_forall. intros m Hm.
    apply list_elem_of_In, in_map_iff in Hm as (repo & <- & Hin).
    apply Hbytes, list_elem_of_In, Hin. }
  assert (Hall' : Forall languageBytes (map bytes order)) by now rewrite Hmaps.
  assert (Hbound' : forall lang, totalBytes lang (map bytes order) < 2 ^ 53).
  { intros lang. rewrite (totalBytes_perm _ _ _ Hmaps). apply Hbound. }
  assert (Hsum : forall lang,
    getOwn lang (runTasks up username order) =
    if mentioned lang (map bytes repos)
    then Some (Num (totalBytes lang (map bytes repos))) else None).
  { intros lang.
    rewrite (runTasks_bytes _ _ bytes order Hans'), (mergeAll_byteMap _ _ Hall' Hbound').
    now rewrite (mentioned_perm _ _ _ Hmaps), (totalBytes_perm _ _ _ Hmaps). }
  assert (Hext : forall lang,
    getOwn lang (runTasks up username order) = getOwn lang (runTasks up username repos)).
  { intros lang. rewrite Hsum.
    now rewrite (runTasks_bytes _ _ bytes repos Hans), (mergeAll_byteMap _ _ Hall Hbound). }
  split; [| split; assumption].
  apply totals_ext; [| | exact Hext]; rewrite runTasks_mergeAll; apply mergeAll_NoDup.
Qed.

Lemma scenarioBytes_languageBytes repo : languageBytes (scenarioBytes repo).
Proof.
  unfold scenarioBytes.
  repeat match goal with
         | |- context [if ?b then _ else _] => destruct b
         end; repeat constructor; simpl; lia.
Qed.

Lemma C5_aggregation_order_independent_witness :
  rev (sampleRepos 6) ≡ₚ sampleRepos 6 /\
  runTasks scenarioD "octocat" (rev (sampleRepos 6))
  ≡ₚ runTasks scenarioD "octocat" (sampleRepos 6) /\
  getOwn "JavaScript" (runTasks scenarioD "octocat" (rev (sampleRepos 6)))
  = Some (Num 2010) /\
  getOwn "Rust" (runTasks scenarioD "octocat" (rev (sampleRepos 6))) = None.
Proof.
  assert (Hperm : rev (sampleRepos 6) ≡ₚ sampleRepos 6)
    by exact (Permutation_sym (Permutation_rev (sampleRepos 6))).
  assert (Hans : forall repo, repo ∈ sampleRepos 6 ->
                 contributes scenarioD "octocat" repo (scenarioBytes repo))
    by (intros repo _; reflexivity).
  assert (Hall : Forall languageBytes (map scenarioBytes (sampleRepos 6))).
  { apply Forall_forall. intros m Hm.
    apply list_elem_of_In, in_map_iff in Hm as (repo & <- & _).
    apply scenarioBytes_languageBytes. }
  assert (Hbound : forall lang,
            totalBytes lang (map scenarioBytes (sampleRepos 6)) < 2 ^ 53).
  { intros lang. pose proof (totalBytes_le_sumAllCounts lang _ Hall) as Hle.
    vm_compute sumAllCounts in Hle. lia. }
  destruct (C5_aggregation_order_independent scenarioD "octocat" scenarioBytes
              (sampleRepos 6) (rev (sampleRepos 6)) Hans
              (fun repo _ => scenarioBytes_languageBytes repo) Hbound Hperm)
    as (Hsame & _ & Hsum).
  split; [exact Hperm |]. split; [exact Hsame |].
  split; [exact (Hsum "JavaScript") | exact (Hsum "Rust")].
Defined.

(** C5 does not hold as stated. Two repositories report 5 and 7 bytes
    under the key "constructor". The totals start as an object that
    inherits a function under that name, so the first task stores a text
    instead of a number, and the text that results depends on the order of
    completion; it is never the sum 12. *)
Lemma C5_counterexample :
  (forall repo, repo ∈ constructorRepos ->
     contributes constructorLanguages "octocat" repo (constructorBytes repo)) /\
  rev constructorRepos ≡ₚ constructorRepos /\
  getOwn "constructor" (runTasks constructorLanguages "octocat" constructorRepos)
  = Some (Str "function Object() { [native code] }57") /\
  getOwn "constructor" (runTasks constructorLanguages "octocat" (rev constructorRepos))
  = Some (Str "function Object() { [native code] }75").
Proof.
  split; [intros repo _; reflexivity |].
  split; [exact (Permutation_sym (Permutation_rev constructorRepos)) |].
  split; reflexivity.
Qed.

(** ** The handler *)

(** What the handler does, case by case on what upstream answers. *)
Lemma serve_cases token up req :
  serve token up req =
  let u := username req in
  if tokenMissing token then
    (inr (mkResponse 500 (ErrorJson "Server configuration error: GitHub token missing.")), [])
  else
    match users up u with
    | inl err => (inr (internalError err), [GetUser u])
    | inr r =>
        if status r =? 404 then
          (inr (mkResponse 404 (ErrorJson "User not found")), [GetUser u])
        else if status r =? 401 then
          (inr (mkResponse 401 (ErrorJson "GitHub Token is invalid or expired.")), [GetUser u])
        else
          match json r with
          | inl err => (inr (internalError err), [GetUser u])
          | inr profile =>
              match userRepos up u with
              | inl err => (inr (internalError err), [GetUser u; GetRepos u])
              | inr rep =>
                  match json rep with
                  | inl err => (inr (internalError err), [GetUser u; GetRepos u])
                  | inr fetchedRepos =>
                      let finalRepos :=
                        applyFilter (arrayOrEmpty fetchedRepos) (isTrueString (filter req)) in
                      (inr (analysis profile finalRepos
                              (runTasks up u (completion up finalRepos))),
                       [GetUser u; GetRepos u] ++ languageCalls u finalRepos)
                  end
              end
          end
    end.
Proof.
  unfold serve, analyze. cbv zeta.
  destruct (tokenMissing token); [reflexivity |].
  unfold tryCatch, bind, fetch, awaitJson, ret, aggregateLanguages. simpl.
  destruct (users up (username req)) as [err | r]; [reflexivity |].
  destruct (status r =? 404); [reflexivity |].
  destruct (status r =? 401); [reflexivity |].
  destruct (json r) as [err | profile]; [reflexivity |].
  destruct (userRepos up (username req)) as [err | rep]; [reflexivity |].
  destruct (json rep) as [err | fetchedRepos]; reflexivity.
Qed.

(** Once the upstream requests have settled the handler sends a response:
    nothing thrown escapes it. *)
Lemma serve_responds token up req :
  exists response, fst (serve token up req) = inr response.
Proof.
  rewrite serve_cases. cbv zeta.
  repeat match goal with
         | |- context [if ?b then _ else _] => destruct b
         | |- context [match ?x with inl _ => _ | inr _ => _ end] => destruct x
         end; eauto.
Qed.

(** The responses of the handler carry status 200, 401, 404 or 500, and no
    other. *)
Lemma serve_status token up req response :
  fst (serve token up req) = inr response ->
  statusCode response ∈ [200; 401; 404; 500].
Proof.
  rewrite serve_cases. cbv zeta.
  repeat match goal with
         | |- context [if ?b then _ else _] => destruct b
         | |- context [match ?x with inl _ => _ | inr _ => _ end] => destruct x
         end; simpl; intros [= <-]; simpl; repeat constructor.
Qed.

(** *** Failures of the profile request *)

(** Under a status other than 404 and 401, 2xx or not, the handler reads
    the body as the profile and, once it parses, requests the
    repositories. *)
Lemma serve_other_status token up req r profile :
  tokenMissing token = false ->
  users up (username req) = inr r ->
  status r <> 404 -> status r <> 401 ->
  json r = inr profile ->
  GetRepos (username req) ∈ snd (serve token up req).
Proof.
  intros Htoken Huser H404 H401 Hjson.
  rewrite serve_cases. cbv zeta. rewrite Htoken, Huser.
  destruct (Z.eqb_spec (status r) 404); [contradiction |].
  destruct (Z.eqb_spec (status r) 401); [contradiction |].
  rewrite Hjson.
  destruct (userRepos up (username req)) as [err | rep]; simpl.
  - apply list_elem_of_further, list_elem_of_here.
  - destruct (json rep); simpl; apply list_elem_of_further, list_elem_of_here.
Qed.

(** C3 (as the code has it). With a token configured and the user request
    answered with status 404 or 401, the handler stops there and reports
    the failure without a repository request: status 404 gives the
    response 404 "User not found", status 401 the response 401 "GitHub
    Token is invalid or expired.". *)
Theorem C3_profile_status token up req r :
  tokenMissing token = false ->
  users up (username req) = inr r ->
  status r = 404 \/ status r = 401 ->
  serve token up req =
  (inr (mkResponse (status r)
          (ErrorJson (if status r =? 404 then "User not found"
                      else "GitHub Token is invalid or expired."))),
   [GetUser (username req)]).
Proof.
  intros Htoken Huser Hstatus. rewrite serve_cases. cbv zeta. rewrite Htoken, Huser.
  destruct Hstatus as [-> | ->]; reflexivity.
Qed.

Lemma C3_profile_status_witness :
  serve (Some "token") unknownUser (mkRequest "nobody" QAbsent) =
  (inr (mkResponse 404 (ErrorJson "User not found")), [GetUser "nobody"]) /\
  serve (Some "token") badToken (mkRequest "octocat" QAbsent) =
  (inr (mkResponse 401 (ErrorJson "GitHub Token is invalid or expired.")),
   [GetUser "octocat"]).
Proof.
  split.
  - exact (C3_profile_status (Some "token") unknownUser (mkRequest "nobody" QAbsent)
             (mkHttpResponse 404 (inl (mkExn "body not read")))
             eq_refl eq_refl (or_introl eq_refl)).
  - exact (C3_profile_status (Some "token") badToken (mkRequest "octocat" QAbsent)
             (mkHttpResponse 401 (inl (mkExn "body not read")))
             eq_refl eq_refl (or_intror eq_refl)).
Defined.

(** C3 does not hold as stated: under status 403, which is not a 2xx
    status, the handler requests the repositories all the same and answers
    with status 200 and a result, not with a failure that carries 403. *)
Lemma C3_counterexample :
  exists r result,
    users rateLimited "octocat" = inr r /\
    ~ (200 <= status r < 300) /\
    serve (Some "token") rateLimited (mkRequest "octocat" QAbsent) =
    (inr (mkResponse 200 (ResultJson result)), [GetUser "octocat"; GetRepos "octocat"]).
Proof.
  eexists _, _. split; [reflexivity |]. split; [simpl; lia |]. reflexivity.
Qed.

(** *** Failures of a language request *)

(** What a task catches leaves the totals as they are. *)
Lemma languageTask_thrown up username (o : LangTotals) repo :
  (exists err, repoLanguages up username (name repo) = inl err) \/
  (exists lg err, repoLanguages up username (name repo) = inr lg /\ json lg = inl err) ->
  languageTask up username o repo = o.
Proof.
  unfold languageTask. intros [[err ->] | (lg & err & -> & ->)]; reflexivity.
Qed.

(** Whatever the language requests do, a request whose user and repository
    requests succeed is answered with status 200. *)
Lemma serve_survives_languages token up req r profile rep fetchedRepos :
  tokenMissing token = false ->
  users up (username req) = inr r -> status r <> 404 -> status r <> 401 ->
  json r = inr profile ->
  userRepos up (username req) = inr rep -> json rep = inr fetchedRepos ->
  exists response,
    fst (serve token up req) = inr response /\ statusCode response = 200.
Proof.
  intros Htoken Huser H404 H401 Hprofile Hrepos Hfetched.
  rewrite serve_cases. cbv zeta. rewrite Htoken, Huser.
  destruct (Z.eqb_spec (status r) 404); [contradiction |].
  destruct (Z.eqb_spec (status r) 401); [contradiction |].
  rewrite Hprofile, Hrepos, Hfetched. eexists. split; reflexivity.
Qed.

(** C6, at an input where the code departs from it. The language request
    of the one repository is answered with status 404 and the error object
    of upstream. The task does not treat this as a failure: it adds the
    three keys of the error object to the totals, and the score counts
    them as languages (24 instead of 4). When the same request fails on the
    network, the task adds nothing. *)
Theorem C6_error_answer_adds_entries :
  repoLanguages languagesNotFound "octocat" (name goneRepo)
  = inr (mkHttpResponse 404 (inr notFoundBody)) /\
  languageTask languagesNotFound "octocat" [] goneRepo =
  [("message", Str "0Not Found");
   ("documentation_url",
    Str "0https://docs.github.com/rest/repos/repos#list-repository-languages");
   ("status", Str "0404")] /\
  (exists result,
     fst (serve (Some "token") languagesNotFound (mkRequest "octocat" QAbsent))
     = inr (mkResponse 200 (ResultJson result)) /\
     Object_keys (languagesByBytes result) = ["message"; "documentation_url"; "status"] /\
     hireabilityScore result = 24) /\
  (exists result,
     fst (serve (Some "token") languagesUnreachable (mkRequest "octocat" QAbsent))
     = inr (mkResponse 200 (ResultJson result)) /\
     languagesByBytes result = [] /\
     hireabilityScore result = 4).
Proof.
  split; [reflexivity |]. split; [reflexivity |].
  split; eexists; (split; [reflexivity |]); split; reflexivity.
Qed.

(** *** The result sent *)

(** A response that carries a result comes from the last step of the
    handler. *)
Lemma serve_result token up req response result log :
  serve token up req = (inr response, log) ->
  payload response = ResultJson result ->
  exists r p rep fetchedRepos,
    users up (username req) = inr r /\ json r = inr p /\
    userRepos up (username req) = inr rep /\ json rep = inr fetchedRepos /\
    let finalRepos := applyFilter (arrayOrEmpty fetchedRepos) (isTrueString (filter req)) in
    response = analysis p finalRepos (runTasks up (username req) (completion up finalRepos)) /\
    log = [GetUser (username req); GetRepos (username req)]
          ++ languageCalls (username req) finalRepos.
Proof.
  rewrite serve_cases. cbv zeta.
  destruct (tokenMissing token); [intros [= <- <-]; discriminate |].
  destruct (users up (username req)) as [err | r]; [intros [= <- <-]; discriminate |].
  destruct (status r =? 404); [intros [= <- <-]; discriminate |].
  destruct (status r =? 401); [intros [= <- <-]; discriminate |].
  destruct (json r) as [err | p] eqn:Hp; [intros [= <- <-]; discriminate |].
  destruct (userRepos up (username req)) as [err | rep] eqn:Hrep;
    [intros [= <- <-]; discriminate |].
  destruct (json rep) as [err | fetchedRepos] eqn:Hfetched;
    [intros [= <- <-]; discriminate |].
  intros [= <- <-] _. exists r, p, rep, fetchedRepos. auto 10.
Qed.

(** C7. In a response that carries a result, the repositories reported
    are the effective list: what upstream listed, filtered when the flag
    is set. The language totals are what the tasks of exactly these
    repositories add, run in some order; the score is computed from these
    repositories and these totals; and the language requests made are
    those of these repositories. *)
Theorem C7_same_repositories token up req response result log :
  serve token up req = (inr response, log) ->
  payload response = ResultJson result ->
  (exists rep fetchedRepos,
     userRepos up (username req) = inr rep /\ json rep = inr fetchedRepos /\
     repositories result =
     applyFilter (arrayOrEmpty fetchedRepos) (isTrueString (filter req))) /\
  (exists order,
     order ≡ₚ repositories result /\
     languagesByBytes result = runTasks up (username req) order) /\
  hireabilityScore result =
  calculateHireabilityScore (profile result) (repositories result) (languagesByBytes result) /\
  log = [GetUser (username req); GetRepos (username req)]
        ++ languageCalls (username req) (repositories result).
Proof.
  intros Hserve Hpayload.
  destruct (serve_result _ _ _ _ _ _ Hserve Hpayload)
    as (r & p & rep & fetchedRepos & _ & _ & Hrep & Hfetched & Hresponse & Hlog).
  cbv zeta in Hresponse, Hlog. subst response. injection Hpayload as <-. simpl.
  split; [| split; [| split]].
  - exists rep, fetchedRepos. auto.
  - eexists. split; [apply completion_perm | reflexivity].
  - reflexivity.
  - exact Hlog.
Qed.

Lemma C7_same_repositories_witness :
  exists response result log,
    serve (Some "token") scenarioC (mkRequest "octocat" (QString "true")) = (inr response, log) /\
    payload response = ResultJson result /\
    repositories result = [mkRepository "plain" false 300 (Some "A plain project")] /\
    hireabilityScore result =
    calculateHireabilityScore (profile result) (repositories result) (languagesByBytes result) /\
    log = [GetUser "octocat"; GetRepos "octocat"; GetLanguages "octocat" "plain"].
Proof.
  eexists _, _, _. split; [reflexivity |]. split; [reflexivity |].
  split; [reflexivity |].
  destruct (C7_same_repositories (Some "token") scenarioC
              (mkRequest "octocat" (QString "true")) _ _ _ eq_refl eq_refl)
    as (_ & _ & Hscore & Hlog).
  split; [exact Hscore | exact Hlog].
Defined.

(** C9. When the body of the repository-list answer parses to something
    that is not an array, the handler goes on with the empty list: no
    language request is made, the totals are empty, the score is that of
    no repository and no language, and the response is the result with
    status 200, whatever the filter flag. *)
Theorem C9_not_an_array token up req r profile rep :
  tokenMissing token = false ->
  users up (username req) = inr r -> status r <> 404 -> status r <> 401 ->
  json r = inr profile ->
  userRepos up (username req) = inr rep ->
  json rep = inr NotAnArray ->
  serve token up req =
  (inr (mkResponse 200
          (ResultJson (mkAnalysisResult profile [] []
                         (calculateHireabilityScore profile [] [])
                         (generateAIReview profile []
                            (calculateHireabilityScore profile [] []))))),
   [GetUser (username req); GetRepos (username req)]).
Proof.
  intros Htoken Huser H404 H401 Hprofile Hrepos Hbody.
  rewrite serve_cases. cbv zeta. rewrite Htoken, Huser.
  destruct (Z.eqb_spec (status r) 404); [contradiction |].
  destruct (Z.eqb_spec (status r) 401); [contradiction |].
  rewrite Hprofile, Hrepos, Hbody. simpl arrayOrEmpty.
  assert (Hfinal : applyFilter [] (isTrueString (filter req)) = [])
    by now destruct (isTrueString (filter req)).
  rewrite Hfinal.
  assert (Hnone : completion up [] = [])
    by (apply Permutation_nil_r, completion_perm).
  rewrite Hnone. reflexivity.
Qed.

Lemma C9_not_an_array_witness :
  serve (Some "token") reposNotArray (mkRequest "octocat" (QString "true")) =
  (inr (mkResponse 200
          (ResultJson (mkAnalysisResult octocat [] []
                         (calculateHireabilityScore octocat [] [])
                         (generateAIReview octocat []
                            (calculateHireabilityScore octocat [] []))))),
   [GetUser "octocat"; GetRepos "octocat"]).
Proof.
  refine (C9_not_an_array (Some "token") reposNotArray (mkRequest "octocat" (QString "true"))
            (mkHttpResponse 200 (inr octocat)) octocat (mkHttpResponse 200 (inr NotAnArray))
            eq_refl eq_refl _ _ eq_refl eq_refl eq_refl); simpl; lia.
Defined.

(** *** The filter flag *)

Lemma isTrueString_spec v : isTrueString v = true <-> v = QString "true".
Proof.
  destruct v as [| s |]; simpl; [split; discriminate | | split; discriminate].
  rewrite String.eqb_eq. split; [now intros -> | now intros [= ->]].
Qed.

(** C10. The flag is set exactly when the [filter] parameter is the
    string "true". Any other value, such as "TRUE", "1", "yes", a
    structured value or no parameter at all, leaves it unset: the handler
    then does what it does without the parameter, and a result it sends
    reports every repository that upstream listed; with "true" it reports
    the filtered list. *)
Theorem C10_filter_flag :
  (forall v, isTrueString v = true <-> v = QString "true") /\
  isTrueString (QString "TRUE") = false /\
  isTrueString (QString "1") = false /\
  isTrueString (QString "yes") = false /\
  isTrueString QAbsent = false /\
  (forall token up u v,
     v <> QString "true" ->
     serve token up (mkRequest u v) = serve token up (mkRequest u QAbsent)) /\
  (forall token up u v response result rep fetchedRepos,
     fst (serve token up (mkRequest u v)) = inr response ->
     payload response = ResultJson result ->
     userRepos up u = inr rep -> json rep = inr fetchedRepos ->
     (v <> QString "true" -> repositories result = arrayOrEmpty fetchedRepos) /\
     (v = QString "true" ->
      repositories result = filterLowValueRepos (arrayOrEmpty fetchedRepos))).
Proof.
  split; [exact isTrueString_spec |].
  do 4 (split; [reflexivity |]).
  split.
  - intros token up u v Hv. rewrite !serve_cases. cbv zeta. simpl.
    destruct (isTrueString v) eqn:Hflag; [| reflexivity].
    now apply isTrueString_spec in Hflag.
  - intros token up u v response result rep fetchedRepos Hserve Hpayload Hrep Hfetched.
    destruct (serve token up (mkRequest u v)) as [sent log] eqn:Hrun.
    simpl in Hserve. subst sent.
    destruct (serve_result token up (mkRequest u v) response result log Hrun Hpayload)
      as (r & p & rep' & fetched' & _ & _ & Hrep' & Hfetched' & Hresponse & _).
    simpl in Hrep'. rewrite Hrep in Hrep'. injection Hrep' as <-.
    rewrite Hfetched in Hfetched'. injection Hfetched' as <-.
    cbv zeta in Hresponse. subst response. injection Hpayload as <-.
    simpl. unfold applyFilter. split.
    + intros Hv. destruct (isTrueString v) eqn:Hflag; [| reflexivity].
      now apply isTrueString_spec in Hflag.
    + intros ->. reflexivity.
Qed.

Lemma C10_filter_flag_witness :
  serve (Some "token") scenarioC (mkRequest "octocat" (QString "TRUE"))
  = serve (Some "token") scenarioC (mkRequest "octocat" QAbsent) /\
  (exists response result,
     fst (serve (Some "token") scenarioC (mkRequest "octocat" (QString "TRUE")))
     = inr response /\
     payload response = ResultJson result /\
     repositories result = scenarioCRepos) /\
  (exists response result,
     fst (serve (Some "token") scenarioC (mkRequest "octocat" (QString "true")))
     = inr response /\
     payload response = ResultJson result /\
     repositories result = filterLowValueRepos scenarioCRepos).
Proof.
  destruct C10_filter_flag as (_ & _ & _ & _ & _ & Hsame & Hrepos).
  split; [apply Hsame; discriminate |].
  split; eexists _, _; (split; [reflexivity |]); (split; [reflexivity |]).
  - refine (proj1 (Hrepos (Some "token") scenarioC "octocat" (QString "TRUE") _ _
                     (mkHttpResponse 200 (inr (ReposArray scenarioCRepos)))
                     (ReposArray scenarioCRepos) eq_refl eq_refl eq_refl eq_refl) _).
    discriminate.
  - refine (proj2 (Hrepos (Some "token") scenarioC "octocat" (QString "true") _ _
                     (mkHttpResponse 200 (inr (ReposArray scenarioCRepos)))
                     (ReposArray scenarioCRepos) eq_refl eq_refl eq_refl eq_refl) eq_refl).
Defined.

(** * Further properties of the server *)

(** ** What the handler answers *)

(** X1. A response that the handler sends has status 200, 401, 404 or
    500, and the status is 200 exactly when the response carries a result;
    every other response carries an error text. *)
Theorem X1_response_status token up req response :
  fst (serve token up req) = inr response ->
  statusCode response ∈ [200; 401; 404; 500] /\
  (statusCode response = 200 <-> exists result, payload response = ResultJson result) /\
  (statusCode response <> 200 <-> exists error, payload response = ErrorJson error).
Proof.
  rewrite serve_cases. cbv zeta.
  repeat match goal with
         | |- context [if ?b then _ else _] => destruct b
         | |- context [match ?x with inl _ => _ | inr _ => _ end] => destruct x
         end;
    intros [= <-]; simpl; (split; [repeat constructor |]); split; split;
    try (intros Hcode; try discriminate; try congruence; eauto; fail);
    try (intros [x Hx]; try discriminate; try reflexivity; congruence).
Qed.

Lemma X1_response_status_witness :
  statusCode (mkResponse 404 (ErrorJson "User not found")) ∈ [200; 401; 404; 500] /\
  (statusCode (mkResponse 404 (ErrorJson "User not found")) <> 200 <->
   exists error, payload (mkResponse 404 (ErrorJson "User not found")) = ErrorJson error).
Proof.
  destruct (X1_response_status (Some "token") unknownUser (mkRequest "nobody" QAbsent)
              _ eq_refl) as (Hcode & _ & Herror).
  split; [exact Hcode | exact Herror].
Defined.

(** X2. Upstream is contacted exactly when a non-empty token is configured:
    with the token unset or empty the handler answers 500 "Server
    configuration error: GitHub token missing." without any upstream call,
    and with any other token its first call requests the user. *)
Theorem X2_token_guard token up req :
  (token = None \/ token = Some "" ->
   serve token up req =
   (inr (mkResponse 500 (ErrorJson "Server configuration error: GitHub token missing.")),
    [])) /\
  (token <> None -> token <> Some "" ->
   exists rest, snd (serve token up req) = GetUser (username req) :: rest).
Proof.
  rewrite serve_cases. cbv zeta. split.
  - intros [-> | ->]; reflexivity.
  - intros Hnone Hempty.
    destruct token as [[| c t] |]; [congruence | | congruence]. simpl.
    repeat match goal with
           | |- context [if ?b then _ else _] => destruct b
           | |- context [match ?x with inl _ => _ | inr _ => _ end] => destruct x
           end; simpl; eauto.
Qed.

Lemma X2_token_guard_witness :
  serve (Some "") scenarioD (mkRequest "octocat" QAbsent) =
  (inr (mkResponse 500 (ErrorJson "Server configuration error: GitHub token missing.")),
   []) /\
  exists rest,
    snd (serve (Some "token") scenarioD (mkRequest "octocat" QAbsent))
    = GetUser "octocat" :: rest.
Proof.
  split.
  - exact (proj1 (X2_token_guard (Some "") scenarioD (mkRequest "octocat" QAbsent))
             (or_intror eq_refl)).
  - refine (proj2 (X2_token_guard (Some "token") scenarioD (mkRequest "octocat" QAbsent))
              _ _); discriminate.
Defined.

(** X3. What the user request or the repository request throws, on the
    network or on a body that is not JSON, ends the request there: the
    response is 500 "Internal Server Error: " followed by the message of
    the error, and no later upstream call is made. *)
Theorem X3_thrown_errors token up req :
  tokenMissing token = false ->
  let u := username req in
  (forall err, users up u = inl err ->
     serve token up req = (inr (internalError err), [GetUser u])) /\
  (forall r err,
     users up u = inr r -> status r <> 404 -> status r <> 401 -> json r = inl err ->
     serve token up req = (inr (internalError err), [GetUser u])) /\
  (forall r p,
     users up u = inr r -> status r <> 404 -> status r <> 401 -> json r = inr p ->
     (forall err, userRepos up u = inl err ->
        serve token up req = (inr (internalError err), [GetUser u; GetRepos u])) /\
     (forall rep err, userRepos up u = inr rep -> json rep = inl err ->
        serve token up req = (inr (internalError err), [GetUser u; GetRepos u]))).
Proof.
  intros Htoken u. subst u. rewrite serve_cases. cbv zeta. rewrite Htoken.
  split; [| split].
  - intros err ->. reflexivity.
  - intros r err -> H404 H401 ->.
    destruct (Z.eqb_spec (status r) 404); [contradiction |].
    destruct (Z.eqb_spec (status r) 401); [contradiction |]. reflexivity.
  - intros r p -> H404 H401 ->.
    destruct (Z.eqb_spec (status r) 404); [contradiction |].
    destruct (Z.eqb_spec (status r) 401); [contradiction |].
    split.
    + intros err ->. reflexivity.
    + intros rep err -> ->. reflexivity.
Qed.

Lemma X3_thrown_errors_witness :
  serve (Some "token") userUnreachable (mkRequest "octocat" QAbsent) =
  (inr (mkResponse 500
          (ErrorJson "Internal Server Error: getaddrinfo ENOTFOUND api.github.com")),
   [GetUser "octocat"]) /\
  serve (Some "token") reposUnparsable (mkRequest "octocat" QAbsent) =
  (inr (mkResponse 500
          (ErrorJson "Internal Server Error: Unexpected token < in JSON at position 0")),
   [GetUser "octocat"; GetRepos "octocat"]).
Proof.
  split.
  - exact (proj1 (X3_thrown_errors (Some "token") userUnreachable
                    (mkRequest "octocat" QAbsent) eq_refl) _ eq_refl).
  - refine (proj2 (proj2 (proj2 (X3_thrown_errors (Some "token") reposUnparsable
                                   (mkRequest "octocat" QAbsent) eq_refl))
                     (mkHttpResponse 200 (inr octocat)) octocat eq_refl _ _ eq_refl)
              _ _ eq_refl eq_refl); simpl; lia.
Defined.


(** ** The keys of the language totals *)

Lemma addLanguages_keys_elem (o : LangTotals) entries k :
  k ∈ Object_keys (addLanguages o entries) <->
  k ∈ Object_keys o \/ (k ∈ map fst entries /\ k <> "__proto__").
Proof.
  unfold addLanguages. revert o.
  induction entries as [| [lang bytes] entries IH]; intros o; simpl.
  - split; [now left | intros [Hin | [Hin _]]; [exact Hin | inversion Hin]].
  - rewrite IH, setProp_keys_elem, elem_of_cons. split.
    + intros [[Hin | [-> Hne]] | [Hin Hne]]; auto.
    + intros [Hin | [[-> | Hin] Hne]]; auto.
Qed.

Lemma addLanguages_keys_sublist (o : LangTotals) entries :
  sublist (Object_keys o) (Object_keys (addLanguages o entries)).
Proof.
  unfold addLanguages. revert o.
  induction entries as [| [lang bytes] entries IH]; intros o; simpl; [reflexivity |].
  etransitivity; [apply setProp_keys_sublist | apply IH].
Qed.

Lemma fold_languageTask_keys up username order (o : LangTotals) k :
  k ∈ Object_keys (fold_left (languageTask up username) order o) <->
  k ∈ Object_keys o \/
  (k <> "__proto__" /\
   exists repo, repo ∈ order /\ k ∈ map fst (taskEntries up username repo)).
Proof.
  revert o. induction order as [| repo order IH]; intros o; simpl.
  - split; [now left |]. intros [Hin | (_ & repo & Hin & _)]; [exact Hin | inversion Hin].
  - rewrite IH, languageTask_entries, addLanguages_keys_elem. split.
    + intros [[Hin | [Hin Hne]] | (Hne & repo' & Hin & Hk)]; [now left | |].
      * right. split; [exact Hne |]. exists repo. split; [apply list_elem_of_here | exact Hin].
      * right. split; [exact Hne |]. exists repo'.
        split; [now apply list_elem_of_further | exact Hk].
    + intros [Hin | (Hne & repo' & Hin & Hk)]; [now left; left |].
      apply elem_of_cons in Hin as [-> | Hin]; [left; right; now split |].
      right. split; [exact Hne |]. now exists repo'.
Qed.

Lemma runTasks_keys up username order k :
  k ∈ Object_keys (runTasks up username order) <->
  k <> "__proto__" /\
  exists repo, repo ∈ order /\ k ∈ map fst (taskEntries up username repo).
Proof.
  unfold runTasks. rewrite fold_languageTask_keys. split; [| now right].
  intros [Hin | H]; [inversion Hin | exact H].
Qed.

Lemma runTasks_NoDup up username order :
  NoDup (Object_keys (runTasks up username order)).
Proof. rewrite runTasks_mergeAll. apply mergeAll_NoDup. Qed.

Lemma runTasks_keys_subset up username order1 order2 :
  (forall repo, repo ∈ order1 -> repo ∈ order2) ->
  (length (Object_keys (runTasks up username order1))
   <= length (Object_keys (runTasks up username order2)))%nat.
Proof.
  intros Hsub. apply submseteq_length, NoDup_submseteq; [apply runTasks_NoDup |].
  intros k (Hne & repo & Hin & Hk)%runTasks_keys. apply runTasks_keys. eauto.
Qed.

(** X6. A task never removes a key of the totals, never changes the order
    of the keys that are there and never stores a key twice: the keys
    before the task are, in their order, among the keys after it, whatever
    upstream answered, and keys that were distinct stay distinct. *)
Theorem X6_keys_keep_their_place up username (langTotals : LangTotals) repo :
  sublist (Object_keys langTotals)
    (Object_keys (languageTask up username langTotals repo)) /\
  (NoDup (Object_keys langTotals) ->
   NoDup (Object_keys (languageTask up username langTotals repo))).
Proof.
  rewrite languageTask_entries.
  split; [apply addLanguages_keys_sublist | apply addLanguages_NoDup].
Qed.

Lemma X6_keys_keep_their_place_witness :
  sublist (Object_keys [("Python", Num 10)])
    (Object_keys (languageTask languagesNotFound "octocat" [("Python", Num 10)] goneRepo)) /\
  NoDup (Object_keys (languageTask languagesNotFound "octocat" [("Python", Num 10)] goneRepo)).
Proof.
  destruct (X6_keys_keep_their_place languagesNotFound "octocat" [("Python", Num 10)] goneRepo)
    as [Hsub Hnd].
  split; [exact Hsub |]. apply Hnd. apply NoDup_singleton.
Defined.

(** ** What does not depend on the order of completion *)

(** The same three endpoints, whatever the order of completion. *)
Lemma serve_same_endpoints token up1 up2 req :
  (forall u, users up1 u = users up2 u) ->
  (forall u, userRepos up1 u = userRepos up2 u) ->
  (forall u repo, repoLanguages up1 u repo = repoLanguages up2 u repo) ->
  snd (serve token up1 req) = snd (serve token up2 req) /\
  ((forall result, fst (serve token up1 req) <> inr (mkResponse 200 (ResultJson result))) ->
   serve token up1 req = serve token up2 req) /\
  (forall response1 result1,
     fst (serve token up1 req) = inr response1 ->
     payload response1 = ResultJson result1 ->
     exists response2 result2,
       fst (serve token up2 req) = inr response2 /\
       payload response2 = ResultJson result2 /\
       profile result1 = profile result2 /\
       repositories result1 = repositories result2 /\
       Object_keys (languagesByBytes result1) ≡ₚ Object_keys (languagesByBytes result2) /\
       hireabilityScore result1 = hireabilityScore result2).
Proof.
  intros Husers Hrepos Hlangs. rewrite !serve_cases. cbv zeta.
  rewrite <- Husers, <- Hrepos.
  destruct (tokenMissing token);
    [split; [reflexivity | split; [reflexivity | intros ? ? [= <-]; discriminate]] |].
  destruct (users up1 (username req)) as [err | r];
    [split; [reflexivity | split; [reflexivity | intros ? ? [= <-]; discriminate]] |].
  destruct (status r =? 404);
    [split; [reflexivity | split; [reflexivity | intros ? ? [= <-]; discriminate]] |].
  destruct (status r =? 401);
    [split; [reflexivity | split; [reflexivity | intros ? ? [= <-]; discriminate]] |].
  destruct (json r) as [err | p];
    [split; [reflexivity | split; [reflexivity | intros ? ? [= <-]; discriminate]] |].
  destruct (userRepos up1 (username req)) as [err | rep];
    [split; [reflexivity | split; [reflexivity | intros ? ? [= <-]; discriminate]] |].
  destruct (json rep) as [err | fetchedRepos];
    [split; [reflexivity | split; [reflexivity | intros ? ? [= <-]; discriminate]] |].
  set (finalRepos := applyFilter (arrayOrEmpty fetchedRepos) (isTrueString (filter req))).
  assert (Hkeys :
    Object_keys (runTasks up1 (username req) (completion up1 finalRepos))
    ≡ₚ Object_keys (runTasks up2 (username req) (completion up2 finalRepos))).
  { apply NoDup_Permutation; [apply runTasks_NoDup | apply runTasks_NoDup |].
    intros k. rewrite !runTasks_keys.
    split; intros (Hne & repo & Hin & Hk); (split; [exact Hne |]); exists repo.
    - rewrite completion_perm in Hin |- *. split; [exact Hin |].
      unfold taskEntries in *. now rewrite <- Hlangs.
    - rewrite completion_perm in Hin |- *. split; [exact Hin |].
      unfold taskEntries in *. now rewrite Hlangs. }
  split; [reflexivity |]. split.
  - intros Hno. exfalso. simpl in Hno. eapply Hno. reflexivity.
  - intros response1 result1 [= <-] [= <-]. simpl.
    eexists _, _. split; [reflexivity |]. split; [reflexivity |]. simpl.
    split; [reflexivity |]. split; [reflexivity |]. split; [exact Hkeys |].
    unfold calculateHireabilityScore. now rewrite (Permutation_length Hkeys).
Qed.

(** X7. Two runs that differ only in the order in which the language
    requests complete make the same upstream calls and send the same
    status; when they send a result, the profile, the repositories, the
    set of language keys and the score are the same, whatever the language
    requests answered, error objects included. *)
Theorem X7_completion_order_and_score token up1 up2 req :
  (forall u, users up1 u = users up2 u) ->
  (forall u, userRepos up1 u = userRepos up2 u) ->
  (forall u repo, repoLanguages up1 u repo = repoLanguages up2 u repo) ->
  snd (serve token up1 req) = snd (serve token up2 req) /\
  (forall response1 result1,
     fst (serve token up1 req) = inr response1 ->
     payload response1 = ResultJson result1 ->
     exists response2 result2,
       fst (serve token up2 req) = inr response2 /\
       payload response2 = ResultJson result2 /\
       profile result1 = profile result2 /\
       repositories result1 = repositories result2 /\
       Object_keys (languagesByBytes result1) ≡ₚ Object_keys (languagesByBytes result2) /\
       hireabilityScore result1 = hireabilityScore result2).
Proof.
  intros Husers Hrepos Hlangs.
  destruct (serve_same_endpoints token up1 up2 req Husers Hrepos Hlangs) as (Hlog & _ & Hres).
  split; assumption.
Qed.

Lemma X7_completion_order_and_score_witness :
  snd (serve (Some "token") scenarioD (mkRequest "octocat" QAbsent))
  = snd (serve (Some "token") scenarioDInOrder (mkRequest "octocat" QAbsent)) /\
  exists response1 result1 response2 result2,
    fst (serve (Some "token") scenarioD (mkRequest "octocat" QAbsent)) = inr response1 /\
    payload response1 = ResultJson result1 /\
    fst (serve (Some "token") scenarioDInOrder (mkRequest "octocat" QAbsent)) = inr response2 /\
    payload response2 = ResultJson result2 /\
    hireabilityScore result1 = hireabilityScore result2 /\
    aiReview result1 <> aiReview result2.
Proof.
  destruct (X7_completion_order_and_score (Some "token") scenarioD scenarioDInOrder
              (mkRequest "octocat" QAbsent)
              (fun _ => eq_refl) (fun _ => eq_refl) (fun _ _ => eq_refl)) as [Hlog Hres].
  split; [exact Hlog |].
  destruct (Hres _ _ eq_refl eq_refl)
    as (response2 & result2 & Hserve2 & Hpayload2 & _ & _ & _ & Hscore).
  eexists _, _, response2, result2.
  split; [reflexivity |]. split; [reflexivity |].
  split; [exact Hserve2 |]. split; [exact Hpayload2 |]. split; [exact Hscore |].
  injection Hserve2 as <-. injection Hpayload2 as <-. simpl. discriminate.
Defined.

(** ** What the filter does to a result *)

Lemma filterLowValueRepos_sublist repos : sublist (filterLowValueRepos repos) repos.
Proof.
  unfold filterLowValueRepos. induction repos as [| repo repos IH]; simpl.
  - constructor.
  - destruct (keepRepo repo); now constructor.
Qed.

(** X8. For the same upstream, the request with [filter=true] never gets
    more than the request with any other value of the parameter: its
    repositories are a sublist of the others, its totals have no more
    keys, and its score is not higher. *)
Theorem X8_filter_never_raises token up u v response1 result1 response2 result2 :
  fst (serve token up (mkRequest u (QString "true"))) = inr response1 ->
  payload response1 = ResultJson result1 ->
  fst (serve token up (mkRequest u v)) = inr response2 ->
  payload response2 = ResultJson result2 ->
  sublist (repositories result1) (repositories result2) /\
  (length (Object_keys (languagesByBytes result1))
   <= length (Object_keys (languagesByBytes result2)))%nat /\
  hireabilityScore result1 <= hireabilityScore result2.
Proof.
  intros Hserve1 Hpayload1 Hserve2 Hpayload2.
  destruct (serve token up (mkRequest u (QString "true"))) as [sent1 log1] eqn:Hrun1.
  destruct (serve token up (mkRequest u v)) as [sent2 log2] eqn:Hrun2.
  simpl in Hserve1, Hserve2. subst sent1 sent2.
  destruct (serve_result _ _ _ _ _ _ Hrun1 Hpayload1)
    as (r & p & rep & fetched & Hr & Hp & Hrep & Hfetched & Hresponse1 & _).
  destruct (serve_result _ _ _ _ _ _ Hrun2 Hpayload2)
    as (r' & p' & rep' & fetched' & Hr' & Hp' & Hrep' & Hfetched' & Hresponse2 & _).
  simpl in *. rewrite Hr in Hr'. injection Hr' as <-.
  rewrite Hp in Hp'. injection Hp' as <-.
  rewrite Hrep in Hrep'. injection Hrep' as <-.
  rewrite Hfetched in Hfetched'. injection Hfetched' as <-.
  subst response1 response2.
  injection Hpayload1 as <-. injection Hpayload2 as <-. simpl.
  set (all := arrayOrEmpty fetched).
  assert (Hsub : sublist (filterLowValueRepos all) (applyFilter all (isTrueString v))).
  { unfold applyFilter. destruct (isTrueString v);
      [reflexivity | apply filterLowValueRepos_sublist]. }
  assert (Hkeys :
    (length (Object_keys (runTasks up u (completion up (filterLowValueRepos all))))
     <= length (Object_keys (runTasks up u
                               (completion up (applyFilter all (isTrueString v))))))%nat).
  { apply runTasks_keys_subset. intros repo. rewrite !completion_perm.
    intros Hin. exact (elem_of_sublist _ _ _ Hin Hsub). }
  split; [exact Hsub |]. split; [exact Hkeys |].
  rewrite !score_as_spec. apply score_monotone; [lia | | lia].
  apply sublist_length in Hsub. lia.
Qed.

Lemma X8_filter_never_raises_witness :
  exists response1 result1 response2 result2,
    fst (serve (Some "token") scenarioCLanguages (mkRequest "octocat" (QString "true")))
    = inr response1 /\
    payload response1 = ResultJson result1 /\
    fst (serve (Some "token") scenarioCLanguages (mkRequest "octocat" (QString "false")))
    = inr response2 /\
    payload response2 = ResultJson result2 /\
    sublist (repositories result1) (repositories result2) /\
    hireabilityScore result1 = 14 /\ hireabilityScore result2 = 34 /\
    hireabilityScore result1 <= hireabilityScore result2.
Proof.
  eexists _, _, _, _.
  split; [reflexivity |]. split; [reflexivity |].
  split; [reflexivity |]. split; [reflexivity |].
  destruct (X8_filter_never_raises (Some "token") scenarioCLanguages "octocat"
              (QString "false") _ _ _ _ eq_refl eq_refl eq_refl eq_refl)
    as (Hsub & _ & Hscore).
  split; [exact Hsub |]. split; [reflexivity |]. split; [reflexivity |]. exact Hscore.
Defined.

(** ** What a result holds *)

(** X9. In every result the language totals hold no key twice, and a key
    is there exactly when it is not "__proto__" and the language request of
    one of the reported repositories was answered with an object that has
    this key: no language comes from a repository that the filter removed.
    The review sent is the one generated from the profile, the totals and
    the score of the same result. *)
Theorem X9_keys_of_a_result token up req response result :
  fst (serve token up req) = inr response ->
  payload response = ResultJson result ->
  NoDup (Object_keys (languagesByBytes result)) /\
  (forall k,
     k ∈ Object_keys (languagesByBytes result) <->
     k <> "__proto__" /\
     exists repo,
       repo ∈ repositories result /\
       k ∈ map fst (taskEntries up (username req) repo)) /\
  aiReview result =
  generateAIReview (profile result) (languagesByBytes result) (hireabilityScore result).
Proof.
  intros Hserve Hpayload.
  destruct (serve token up req) as [sent log] eqn:Hrun. simpl in Hserve. subst sent.
  destruct (serve_result _ _ _ _ _ _ Hrun Hpayload)
    as (r & p & rep & fetched & _ & _ & _ & _ & Hresponse & _).
  cbv zeta in Hresponse. subst response. injection Hpayload as <-. simpl.
  split; [apply runTasks_NoDup |]. split; [| reflexivity].
  intros k. rewrite runTasks_keys.
  split; intros (Hne & repo & Hin & Hk); (split; [exact Hne |]); exists repo;
    (split; [| exact Hk]).
  - now rewrite completion_perm in Hin.
  - now rewrite completion_perm.
Qed.

Lemma X9_keys_of_a_result_witness :
  exists response result,
    fst (serve (Some "token") scenarioCLanguages (mkRequest "octocat" (QString "true")))
    = inr response /\
    payload response = ResultJson result /\
    Object_keys (languagesByBytes result) = ["Python"; "Shell"] /\
    NoDup (Object_keys (languagesByBytes result)).
Proof.
  eexists _, _. split; [reflexivity |]. split; [reflexivity |].
  split; [reflexivity |].
  exact (proj1 (X9_keys_of_a_result (Some "token") scenarioCLanguages
                  (mkRequest "octocat" (QString "true")) _ _ eq_refl eq_refl)).
Defined.

(** ** Byte counts *)

(** X10. When what the language requests answer are byte maps whose keys
    are no names of [Object.prototype], with counts that are not negative
    and sums below 2^53, every value of the totals is a number, it is not
    negative and below 2^53, and it is at least what any single repository
    reports for that language, in every order of completion. *)
Theorem X10_totals_are_counts
    up username (bytes : Repository -> list (string * Z)) (repos order : list Repository) :
  (forall repo, repo ∈ repos -> contributes up username repo (bytes repo)) ->
  (forall repo, repo ∈ repos -> languageBytes (bytes repo)) ->
  (forall lang, totalBytes lang (map bytes repos) < 2 ^ 53) ->
  order ≡ₚ repos ->
  forall lang v,
    getOwn lang (runTasks up username order) = Some v ->
    exists n,
      v = Num n /\ 0 <= n < 2 ^ 53 /\
      forall repo, repo ∈ repos -> bytesOf lang (bytes repo) <= n.
Proof.
  intros Hans Hbytes Hbound Hperm lang v.
  assert (Hans' : forall repo, repo ∈ order -> contributes up username repo (bytes repo)).
  { intros repo Hin. apply Hans. now rewrite <- Hperm. }
  assert (Hmaps : map bytes order ≡ₚ map bytes repos) by now apply Permutation_map.
  assert (Hall : Forall languageBytes (map bytes repos)).
  { apply Forall_forall. intros m Hm.
    apply list_elem_of_In, in_map_iff in Hm as (repo & <- & Hin).
    apply Hbytes, list_elem_of_In, Hin. }
  assert (Hall' : Forall languageBytes (map bytes order)) by now rewrite Hmaps.
  assert (Hbound' : forall l, totalBytes l (map bytes order) < 2 ^ 53).
  { intros l. rewrite (totalBytes_perm _ _ _ Hmaps). apply Hbound. }
  rewrite (runTasks_bytes _ _ bytes order Hans'), (mergeAll_byteMap _ _ Hall' Hbound').
  rewrite (mentioned_perm _ _ _ Hmaps), (totalBytes_perm _ _ _ Hmaps).
  destruct (mentioned lang (map bytes repos)); [| discriminate].
  intros [= <-]. eexists. split; [reflexivity |].
  destruct (totalBytes_bounds lang _ Hall) as [H0 Hle].
  split; [split; [exact H0 | apply Hbound] |].
  intros repo Hin. apply Hle. apply list_elem_of_In, in_map, list_elem_of_In, Hin.
Qed.

Lemma X10_totals_are_counts_witness :
  getOwn "JavaScript" (runTasks scenarioD "octocat" (rev (sampleRepos 6)))
  = Some (Num 2010) /\
  exists n,
    Num 2010 = Num n /\ 0 <= n < 2 ^ 53 /\
    forall repo, repo ∈ sampleRepos 6 -> bytesOf "JavaScript" (scenarioBytes repo) <= n.
Proof.
  split; [reflexivity |].
  assert (Hall : Forall languageBytes (map scenarioBytes (sampleRepos 6))).
  { apply Forall_forall. intros m Hm.
    apply list_elem_of_In, in_map_iff in Hm as (repo & <- & _).
    apply scenarioBytes_languageBytes. }
  apply (X10_totals_are_counts scenarioD "octocat" scenarioBytes
           (sampleRepos 6) (rev (sampleRepos 6))).
  - intros repo _. reflexivity.
  - intros repo _. apply scenarioBytes_languageBytes.
  - intros lang. pose proof (totalBytes_le_sumAllCounts lang _ Hall) as Hle.
    vm_compute sumAllCounts in Hle. lia.
  - exact (Permutation_sym (Permutation_rev (sampleRepos 6))).
  - reflexivity.
Defined.

(** ** The extremes of the score *)

(** X11. The score is 100 exactly when each of the three terms is at its
    cap: at least 300 followers, at least 75 repositories and at least 5
    languages. *)
Theorem X11_full_score profile repos langTotals :
  calculateHireabilityScore profile repos langTotals = 100 <->
  300 <= followers profile /\
  (75 <= length repos)%nat /\
  (5 <= length (Object_keys langTotals))%nat.
Proof.
  rewrite score_as_spec.
  unfold ScoreSpec.score, ScoreSpec.T_f, ScoreSpec.T_v, ScoreSpec.T_d, ScoreSpec.floor_quot.
  generalize (Z.of_nat (length repos)) (Nat2Z.is_nonneg (length repos))
             (Nat2Z.inj_le 75 (length repos)).
  generalize (Z.of_nat (length (Object_keys langTotals)))
             (Nat2Z.is_nonneg (length (Object_keys langTotals)))
             (Nat2Z.inj_le 5 (length (Object_keys langTotals))).
  intros k Hk Hk5 n Hn Hn75. rewrite Hk5, Hn75. clear Hk5 Hn75.
  change (Z.of_nat 5) with 5. change (Z.of_nat 75) with 75.
  pose proof (Z.div_mod (followers profile) 10 ltac:(lia)).
  pose proof (Z.mod_pos_bound (followers profile) 10 ltac:(lia)).
  pose proof (Z.div_mod n 5 ltac:(lia)).
  pose proof (Z.mod_pos_bound n 5 ltac:(lia)).
  lia.
Qed.

(** X12. With a follower count that is not negative the last clamp changes
    nothing: the score is the plain sum of the three capped terms, and it
    is 0 exactly when there are fewer than 10 followers, fewer than 5
    repositories and at most one language. *)
Theorem X12_score_without_clamp profile repos langTotals :
  0 <= followers profile ->
  calculateHireabilityScore profile repos langTotals =
  ScoreSpec.T_f (followers profile)
  + ScoreSpec.T_v (Z.of_nat (length repos))
  + ScoreSpec.T_d (Z.of_nat (length (Object_keys langTotals))) /\
  (calculateHireabilityScore profile repos langTotals = 0 <->
   followers profile < 10 /\
   (length repos < 5)%nat /\
   (length (Object_keys langTotals) <= 1)%nat).
Proof.
  intros Hf. rewrite score_as_spec.
  unfold ScoreSpec.score, ScoreSpec.T_f, ScoreSpec.T_v, ScoreSpec.T_d, ScoreSpec.floor_quot.
  generalize (Z.of_nat (length repos)) (Nat2Z.is_nonneg (length repos))
             (Nat2Z.inj_lt (length repos) 5).
  generalize (Z.of_nat (length (Object_keys langTotals)))
             (Nat2Z.is_nonneg (length (Object_keys langTotals)))
             (Nat2Z.inj_le (length (Object_keys langTotals)) 1).
  intros k Hk Hk1 n Hn Hn5. rewrite Hk1, Hn5. clear Hk1 Hn5.
  change (Z.of_nat 5) with 5. change (Z.of_nat 1) with 1.
  pose proof (Z.div_mod (followers profile) 10 ltac:(lia)).
  pose proof (Z.mod_pos_bound (followers profile) 10 ltac:(lia)).
  pose proof (Z.div_mod n 5 ltac:(lia)).
  pose proof (Z.mod_pos_bound n 5 ltac:(lia)).
  lia.
Qed.

Lemma X12_score_without_clamp_witness :
  calculateHireabilityScore octocat (sampleRepos 12) (sampleTotals 3) = 4 + 4 + 20 /\
  (calculateHireabilityScore (mkProfile "new" 9 4) (sampleRepos 4) (sampleTotals 1) = 0 <->
   9 < 10 /\ (4 < 5)%nat /\ (1 <= 1)%nat).
Proof.
  split.
  - refine (proj1 (X12_score_without_clamp octocat (sampleRepos 12) (sampleTotals 3) _)).
    simpl. lia.
  - refine (proj2 (X12_score_without_clamp (mkProfile "new" 9 4) (sampleRepos 4)
                     (sampleTotals 1) _)).
    simpl. lia.
Defined.

(** ** The review *)

Lemma beforeComma_app k rest :
  includes k "," = false ->
  beforeComma (k +:+ rest) = k +:+ beforeComma rest.
Proof.
  induction k as [| c k IH]; [reflexivity |].
  intros Hk. cbn [includes startsWith] in Hk.
  change (String c k +:+ rest) with (String c (k +:+ rest)).
  change (String c k +:+ beforeComma rest) with (String c (k +:+ beforeComma rest)).
  cbn [beforeComma].
  destruct (Ascii.eqb_spec c ",") as [-> | Hne].
  - rewrite Ascii.eqb_refl in Hk. discriminate.
  - destruct (Ascii.eqb "," c && true); [discriminate |].
    now rewrite (IH Hk).
Qed.

Lemma app_empty_r (s : string) : s +:+ "" = s.
Proof.
  induction s as [| c s IH]; [reflexivity |].
  change (String c s +:+ "") with (String c (s +:+ "")). now rewrite IH.
Qed.

Lemma beforeComma_join k rest :
  includes k "," = false ->
  beforeComma (String.concat ", " (k :: rest)) = k.
Proof.
  intros Hk. destruct rest as [| k' rest]; simpl.
  - rewrite <- (app_empty_r k) at 1. rewrite (beforeComma_app _ _ Hk). simpl.
    apply app_empty_r.
  - rewrite (beforeComma_app _ _ Hk). simpl. apply app_empty_r.
Qed.

Lemma join_cons_nonempty k rest :
  k <> "" -> String.concat ", " (k :: rest) <> "".
Proof.
  intros Hk. destruct k as [| c k]; [congruence |]. destruct rest; simpl; discriminate.
Qed.

(** X13. For a score from 0 to 100 and a count of public repositories
    that is not negative and below 2^53, the review names as the focus the
    first key of the totals, in both places, whatever the values and
    whatever the other keys are, provided the key is not empty and has no
    comma. With no totals at all it names the sentence "No main languages
    detected." in both places. *)
Theorem X13_review_focus profile score :
  0 <= score <= 100 ->
  0 <= public_repos profile < 2 ^ 53 ->
  (forall k v rest,
     k <> "" -> includes k "," = false ->
     generateAIReview profile ((k, v) :: rest) score =
     "This profile showcases a strong focus on " +:+ k
     +:+ ", backed by a Hireability Score of " +:+ numberToString score
     +:+ "/100. The repository filter highlights " +:+ numberToString (public_repos profile)
     +:+ " public projects, demonstrating consistent activity. This candidate exhibits high potential for roles requiring deep expertise in "
     +:+ k
     +:+ ". (This is a mock AI review to demonstrate UI functionality.)") /\
  generateAIReview profile [] score =
  "This profile showcases a strong focus on " +:+ "No main languages detected."
  +:+ ", backed by a Hireability Score of " +:+ numberToString score
  +:+ "/100. The repository filter highlights " +:+ numberToString (public_repos profile)
  +:+ " public projects, demonstrating consistent activity. This candidate exhibits high potential for roles requiring deep expertise in "
  +:+ "No main languages detected."
  +:+ ". (This is a mock AI review to demonstrate UI functionality.)".
Proof.
  intros _ _. split; [| reflexivity].
  intros k v rest Hne Hcomma. unfold generateAIReview. cbv zeta.
  change (Object_keys ((k, v) :: rest)) with (k :: Object_keys rest).
  assert (Hlist : orString (String.concat ", " (k :: Object_keys rest))
                    "No main languages detected."
                  = String.concat ", " (k :: Object_keys rest)).
  { pose proof (join_cons_nonempty k (Object_keys rest) Hne) as Hjoin.
    destruct (String.concat ", " (k :: Object_keys rest)); [congruence | reflexivity]. }
  rewrite Hlist, (beforeComma_join _ _ Hcomma).
  destruct k; [congruence | reflexivity].
Qed.

Lemma X13_review_focus_witness :
  generateAIReview octocat [("Python", Num 1); ("C", Num 900000)] 28 =
  "This profile showcases a strong focus on Python, backed by a Hireability Score of 28/100. The repository filter highlights 12 public projects, demonstrating consistent activity. This candidate exhibits high potential for roles requiring deep expertise in Python. (This is a mock AI review to demonstrate UI functionality.)".
Proof.
  refine (proj1 (X13_review_focus octocat 28 _ _) "Python" (Num 1) [("C", Num 900000)] _ _);
    [lia | simpl; lia | discriminate | reflexivity].
Defined.

(** * Properties of the dashboard *)

(** ** Sorting the languages *)

Lemma insertByBytes_perm x sorted : insertByBytes x sorted ≡ₚ x :: sorted.
Proof.
  induction sorted as [| y rest IH]; simpl; [reflexivity |].
  destruct (snd x <? snd y); [| reflexivity].
  rewrite IH. apply perm_swap.
Qed.

Lemma sortByBytes_perm entries : sortByBytes entries ≡ₚ entries.
Proof.
  induction entries as [| x entries IH]; simpl; [reflexivity |].
  now rewrite insertByBytes_perm, IH.
Qed.

Lemma insertByBytes_sorted x sorted :
  Sorted (fun a b => snd b <= snd a) sorted ->
  Sorted (fun a b => snd b <= snd a) (insertByBytes x sorted).
Proof.
  induction 1 as [| y rest Hrest IH Hhd]; simpl.
  - repeat constructor.
  - destruct (Z.ltb_spec (snd x) (snd y)) as [Hlt | Hge].
    + constructor; [exact IH |].
      destruct rest as [| z rest]; simpl.
      * constructor. lia.
      * inversion Hhd; subst. destruct (snd x <? snd z); constructor; lia.
    + constructor; [now constructor | constructor; lia].
Qed.

Lemma sortByBytes_sorted entries :
  Sorted (fun a b => snd b <= snd a) (sortByBytes entries).
Proof.
  induction entries as [| x entries IH]; simpl; [constructor |].
  now apply insertByBytes_sorted.
Qed.

Lemma insertByBytes_stable b x sorted :
  List.filter (fun e => snd e =? b) (insertByBytes x sorted)
  = List.filter (fun e => snd e =? b) (x :: sorted).
Proof.
  induction sorted as [| y rest IH]; [reflexivity |].
  cbn [insertByBytes].
  destruct (Z.ltb_spec (snd x) (snd y)) as [Hlt | Hge]; [| reflexivity].
  cbn [List.filter] in *. rewrite IH.
  destruct (Z.eqb_spec (snd x) b) as [Hx | Hx]; [| reflexivity].
  destruct (Z.eqb_spec (snd y) b) as [Hy | Hy]; [lia | reflexivity].
Qed.

(** X14. The sorted entries of the chart are the entries given, each one
    once, by decreasing bytes, and entries with the same bytes stay in the
    order in which they were given. *)
Theorem X14_sorted_languages entries :
  sortByBytes entries ≡ₚ entries /\
  Sorted (fun a b => snd b <= snd a) (sortByBytes entries) /\
  forall b,
    List.filter (fun e => snd e =? b) (sortByBytes entries)
    = List.filter (fun e => snd e =? b) entries.
Proof.
  split; [apply sortByBytes_perm |]. split; [apply sortByBytes_sorted |].
  intros b. induction entries as [| x entries IH]; [reflexivity |].
  cbn [sortByBytes fold_right]. fold (sortByBytes entries).
  rewrite insertByBytes_stable. cbn [List.filter]. now rewrite IH.
Qed.

(** The values of a sorted list of entries, in decreasing order. *)
Lemma sorted_values (sorted : list (string * Z)) :
  Sorted (fun a b => snd b <= snd a) sorted ->
  Sorted (fun a b => b <= a) (map snd sorted).
Proof.
  induction 1 as [| y rest Hrest IH Hhd]; simpl; constructor; [exact IH |].
  destruct Hhd; simpl; constructor. assumption.
Qed.

Lemma decreasing_unique (l1 l2 : list Z) :
  Sorted (fun a b => b <= a) l1 -> Sorted (fun a b => b <= a) l2 ->
  l1 ≡ₚ l2 -> l1 = l2.
Proof.
  assert (Htrans : Transitive (fun a b : Z => b <= a)) by (intros x y z ? ?; lia).
  assert (Hanti : AntiSymm eq (fun a b : Z => b <= a)) by (intros x y ? ?; lia).
  apply (Sorted_unique (fun a b : Z => b <= a)).
Qed.

(** The values shown by the chart do not depend on the order of the
    entries. *)
Lemma sortByBytes_values_perm entries1 entries2 :
  entries1 ≡ₚ entries2 ->
  map snd (sortByBytes entries1) = map snd (sortByBytes entries2).
Proof.
  intros Hperm. apply decreasing_unique.
  - apply sorted_values, sortByBytes_sorted.
  - apply sorted_values, sortByBytes_sorted.
  - apply Permutation_map. now rewrite !sortByBytes_perm.
Qed.

(** ** The language chart *)

Lemma Sorted_take {A} (R : relation A) n (l : list A) :
  Sorted R l -> Sorted R (take n l).
Proof.
  intros Hl. revert n. induction Hl as [| x l Hl IH Hhd]; intros [| n]; simpl;
    try constructor; [apply IH |].
  destruct Hhd; destruct n; simpl; constructor. assumption.
Qed.

Lemma chart_of_entries percentage entries chart :
  getLanguageChartData percentage (Some entries) = Some chart ->
  entries <> [] /\
  data chart = take 8 (map snd (sortByBytes entries)) /\
  labels chart =
  map (fun '(label, percent) => label +:+ " (" +:+ percent +:+ ")")
    (zip (take 8 (map fst (sortByBytes entries)))
         (map (fun bytes => percentage bytes (sumBytes (data chart)) +:+ "%") (data chart))) /\
  backgroundColor chart = take (length (data chart)) colors /\
  borderColor chart
  = map (fun c => replaceFirst c "0.8" "1") (take (length (data chart)) colors).
Proof.
  destruct entries as [| e entries]; [discriminate |].
  unfold getLanguageChartData. cbv zeta. intros [= <-]. simpl data.
  split; [discriminate |]. repeat split; reflexivity.
Qed.

(** X15. The language chart exists exactly when there is at least one
    language. It shows at most 8 values, the number of languages when
    there are fewer, in decreasing order, with one label, one background
    colour and one border colour for each value. *)
Theorem X15_chart_shape percentage :
  (forall languagesByBytes,
     getLanguageChartData percentage languagesByBytes = None <->
     languagesByBytes = None \/ languagesByBytes = Some []) /\
  (forall entries chart,
     getLanguageChartData percentage (Some entries) = Some chart ->
     length (data chart) = Nat.min 8 (length entries) /\
     length (labels chart) = length (data chart) /\
     length (backgroundColor chart) = length (data chart) /\
     length (borderColor chart) = length (data chart) /\
     Sorted (fun a b => b <= a) (data chart)).
Proof.
  split.
  - intros [[| e entries] |]; simpl.
    + split; [now right | reflexivity].
    + split; [discriminate | intros [? | ?]; discriminate].
    + split; [now left | reflexivity].
  - intros entries chart Hchart.
    destruct (chart_of_entries _ _ _ Hchart) as (_ & Hdata & Hlabels & Hbg & Hborder).
    assert (Hlen : length (data chart) = Nat.min 8 (length entries)).
    { rewrite Hdata, length_take, length_map, (Permutation_length (sortByBytes_perm entries)).
      reflexivity. }
    assert (Hcolors : length (take (length (data chart)) colors) = length (data chart)).
    { rewrite length_take. change (length colors) with 8%nat. lia. }
    split; [exact Hlen |]. split; [| split; [| split]].
    + rewrite Hlabels, length_map, length_zip_with, length_take, !length_map.
      rewrite (Permutation_length (sortByBytes_perm entries)). lia.
    + now rewrite Hbg.
    + now rewrite Hborder, length_map.
    + rewrite Hdata. apply Sorted_take, sorted_values, sortByBytes_sorted.
Qed.



(** X17. The values and the colours of the chart do not depend on the
    order in which the languages are given, so they do not depend on the
    order in which the server inserted them. *)
Theorem X17_chart_values_order percentage entries1 entries2 chart1 :
  entries1 ≡ₚ entries2 ->
  getLanguageChartData percentage (Some entries1) = Some chart1 ->
  exists chart2,
    getLanguageChartData percentage (Some entries2) = Some chart2 /\
    data chart1 = data chart2 /\
    backgroundColor chart1 = backgroundColor chart2 /\
    borderColor chart1 = borderColor chart2.
Proof.
  intros Hperm Hchart1.
  destruct (chart_of_entries _ _ _ Hchart1) as (Hne & Hdata1 & _ & Hbg1 & Hborder1).
  destruct entries2 as [| e entries2].
  { apply Permutation_nil_r in Hperm. contradiction. }
  eexists. split; [reflexivity |]. simpl data. simpl backgroundColor. simpl borderColor.
  assert (Hdata : data chart1 = take 8 (map snd (sortByBytes (e :: entries2))))
    by now rewrite Hdata1, (sortByBytes_values_perm _ _ Hperm).
  split; [exact Hdata |]. rewrite Hbg1, Hborder1, Hdata. split; reflexivity.
Qed.

Lemma X17_chart_values_order_witness :
  exists chart1 chart2,
    getLanguageChartData (fun _ _ => "?") (Some [("CSS", 360); ("JavaScript", 2010)])
    = Some chart1 /\
    getLanguageChartData (fun _ _ => "?") (Some [("JavaScript", 2010); ("CSS", 360)])
    = Some chart2 /\
    data chart1 = data chart2.
Proof.
  eexists.
  assert (Hchart1 : getLanguageChartData (fun _ _ => "?")
                      (Some [("CSS", 360); ("JavaScript", 2010)]) = Some _)
    by reflexivity.
  destruct (X17_chart_values_order (fun _ _ => "?")
              [("CSS", 360); ("JavaScript", 2010)] [("JavaScript", 2010); ("CSS", 360)]
              _ (perm_swap _ _ []) Hchart1) as (chart2 & Hchart2 & Hdata & _).
  exists chart2. split; [exact Hchart1 |]. split; [exact Hchart2 | exact Hdata].
Defined.

Lemma X15_chart_shape_witness :
  exists chart,
    getLanguageChartData (fun _ _ => "?") (Some [("CSS", 360); ("JavaScript", 2010)])
    = Some chart /\
    length (data chart) = Nat.min 8 2 /\
    length (labels chart) = length (data chart).
Proof.
  eexists.
  assert (Hchart : getLanguageChartData (fun _ _ => "?")
                     (Some [("CSS", 360); ("JavaScript", 2010)]) = Some _)
    by reflexivity.
  destruct (proj2 (X15_chart_shape (fun _ _ => "?")) _ _ Hchart) as (Hlen & Hlabels & _).
  split; [exact Hchart |]. split; [exact Hlen | exact Hlabels].
Defined.

(** ** The activity chart *)

(** X18. The activity chart exists exactly when there is at least one
    count. Its labels are always the same 52, all different, from "Current
    Week" to "Year Ago" with "Week 51" down to "Week 2" between them, and
    the counts are passed on unchanged, however many there are. *)
Theorem X18_activity_chart :
  (forall annualActivity,
     getAnnualActivityChartData annualActivity = None <->
     annualActivity = None \/ annualActivity = Some []) /\
  (forall counts chart,
     getAnnualActivityChartData (Some counts) = Some chart ->
     activityData chart = counts /\
     length (activityLabels chart) = 52%nat /\
     NoDup (activityLabels chart) /\
     activityLabels chart !! 0%nat = Some "Current Week" /\
     activityLabels chart !! 51%nat = Some "Year Ago" /\
     forall i, (0 < i < 51)%nat ->
       activityLabels chart !! i = Some ("Week " +:+ pretty (52 - Z.of_nat i))).
Proof.
  split.
  - intros [[| c counts] |]; simpl.
    + split; [now right | reflexivity].
    + split; [discriminate | intros [? | ?]; discriminate].
    + split; [now left | reflexivity].
  - intros [| c counts] chart; [discriminate |].
    unfold getAnnualActivityChartData. cbv zeta. intros [= <-].
    cbn [activityData activityLabels].
    split; [reflexivity |]. split; [reflexivity |].
    split; [refine (bool_decide_unpack _ _); vm_compute; exact I |].
    split; [reflexivity |]. split; [reflexivity |].
    intros i Hi.
    do 52 (destruct i as [| i]; [first [lia | reflexivity] |]). lia.
Qed.

(** ** What the dashboard shows of a response *)

(** X19. For every response that the handler of the analysis route
    sends, the dashboard stores the body of the response as its result, on
    the analysis page and on the comparison page alike: the analysis when
    the status is 200, and otherwise the error text of the handler itself,
    never the text that stands in for a missing one. *)
Theorem X19_dashboard_shows_the_response token up req response :
  fst (serve token up req) = inr response ->
  analyzeResult (Reply response) = payload response /\
  fetchUserData (Reply response) = payload response.
Proof.
  rewrite serve_cases. cbv zeta.
  repeat match goal with
         | |- context [if ?b then _ else _] => destruct b
         | |- context [match ?x with inl _ => _ | inr _ => _ end] => destruct x
         end; intros [= <-]; split; reflexivity.
Qed.

Lemma X19_dashboard_shows_the_response_witness :
  analyzeResult (Reply (mkResponse 404 (ErrorJson "User not found")))
  = ErrorJson "User not found" /\
  fetchUserData (Reply (mkResponse 404 (ErrorJson "User not found")))
  = ErrorJson "User not found".
Proof.
  exact (X19_dashboard_shows_the_response (Some "token") unknownUser
           (mkRequest "nobody" QAbsent) _ eq_refl).
Defined.

(** * Edge cases of the filter *)

Lemma toLowerCase_nonempty d d' :
  toLowerCase d = toLowerCase d' -> truthyString (Some d) = truthyString (Some d').
Proof.
  destruct d, d'; simpl; intros Heq; try reflexivity; discriminate.
Qed.

(** X20. A repository without a description, or with an empty one, is
    judged on its fork flag and its size alone, and size 100 is kept; the
    verdict on a description does not depend on the case of its letters;
    and filtering a filtered list changes nothing. *)
Theorem X20_filter_edges :
  (forall repo,
     description repo = None \/ description repo = Some "" ->
     keepRepo repo = negb (fork repo) && (100 <=? size repo)) /\
  (forall n f sz d d',
     toLowerCase d = toLowerCase d' ->
     keepRepo (mkRepository n f sz (Some d)) = keepRepo (mkRepository n f sz (Some d'))) /\
  (forall repos, filterLowValueRepos (filterLowValueRepos repos) = filterLowValueRepos repos).
Proof.
  split; [| split].
  - intros repo Hd. unfold keepRepo, minLinesOfCode.
    destruct (fork repo); [reflexivity |].
    destruct (Z.ltb_spec (size repo) 100), (Z.leb_spec 100 (size repo));
      try lia; try reflexivity.
    destruct Hd as [-> | ->]; reflexivity.
  - intros n f sz d d' Hlower. unfold keepRepo. cbn [fork size description].
    rewrite (toLowerCase_nonempty _ _ Hlower).
    change (default "" (Some d)) with d. change (default "" (Some d')) with d'.
    now rewrite Hlower.
  - intros repos. unfold filterLowValueRepos.
    induction repos as [| repo repos IH]; simpl; [reflexivity |].
    destruct (keepRepo repo) eqn:Hkeep; simpl; [| exact IH].
    now rewrite Hkeep, IH.
Qed.

Lemma X20_filter_edges_witness :
  keepRepo (mkRepository "edge" false 100 (Some "")) = negb false && (100 <=? 100) /\
  keepRepo (mkRepository "t" false 500 (Some "My TEMPLATE repo"))
  = keepRepo (mkRepository "t" false 500 (Some "my template REPO")).
Proof.
  destruct X20_filter_edges as (Hnone & Hcase & _).
  split.
  - apply (Hnone (mkRepository "edge" false 100 (Some ""))). now right.
  - apply Hcase. reflexivity.
Defined.
